(** * Urna eletronica (Raspberry Pi): the vote store and the voting session

    A shallow embedding of [urna_eletronica_rpi.py]: the [Model] class over
    the SQLite file [votos.db], the [Controller] event handlers that drive one
    voting session, and the report built by [on_relatorio].

    Conventions of the embedding.
    - A value handed over by [sqlite3] ([None], an [int], a [str]) is a
      [sqlval]; a Python [dict] whose iteration order the program relies on is
      an association list in that order.
    - A method that mutates [self], calls the view, the sound player or a
      message box, and may raise, is a computation in the monad [M]: it takes
      the controller, and gives the controller afterwards, the calls made on
      the collaborators, and either an exception or a value.  What a Python
      method did before it raised stays done.
    - What the program reads from the outside world is an argument: the
      wall clock behind [CURRENT_TIMESTAMP] ([agora]) and the voter's answer
      to [askyesno] ([resp]).
    - [numero] is a string of ASCII characters, as the keypad produces. *)

From Stdlib Require Import List String Ascii ZArith Lia Bool PeanoNat.
From Stdlib Require Import Sorted Permutation OrdersEx.
Import ListNotations.
Open Scope string_scope.
Open Scope list_scope.

Set Implicit Arguments.

(** ** Configuration *)

Definition MAX_DIGITS : nat := 2.

(** ** Values and exceptions *)

Inductive sqlval : Type :=
| SqlNull
| SqlInt (z : Z)
| SqlText (s : string).

Inductive exn : Type :=
| OperationalError (msg : string)
| ValueError (msg : string).

(** SQLite's order on values of different storage classes: NULL first, then
    numbers, then text (compared byte by byte). *)
Definition sqlval_compare (a b : sqlval) : comparison :=
  match a, b with
  | SqlNull, SqlNull => Eq
  | SqlNull, _ => Lt
  | _, SqlNull => Gt
  | SqlInt x, SqlInt y => Z.compare x y
  | SqlInt _, SqlText _ => Lt
  | SqlText _, SqlInt _ => Gt
  | SqlText s, SqlText t => String.compare s t
  end.

Definition sqlval_eqb (a b : sqlval) : bool :=
  match sqlval_compare a b with Eq => true | _ => false end.

(** ** The database file *)

(** A row of [candidatos]: [(id, nome, partido)]; [partido] may be NULL. *)
Definition candidato : Type := Z * string * option string.

Definition cand_id (c : candidato) : Z := fst (fst c).
Definition cand_nome (c : candidato) : string := snd (fst c).
Definition cand_partido (c : candidato) : option string := snd c.

(** What a column of [votos] receives when an INSERT does not name it. *)
Inductive col_default : Type :=
| DefaultNull
| DefaultAutoincrement
| DefaultCurrentTimestamp.

Record column : Type := mkColumn {
  col_name : string;
  col_fill : col_default
}.

Definition row : Type := list (string * sqlval).

(** The table [votos]: its columns (they are whatever the table was created
    with, since [CREATE TABLE IF NOT EXISTS] keeps an existing table), its
    rows in insertion order, and the largest rowid handed out so far. *)
Record votos_table : Type := mkVotos {
  vt_columns : list column;
  vt_rows : list row;
  vt_seq : Z
}.

(** [votos.db] as [sqlite3.connect] finds it: each table is there or not. *)
Record db_file : Type := mkFile {
  file_candidatos : option (list candidato);
  file_votos : option votos_table
}.

(** The file once [Model.__init__] has run [_ensure_db]: both tables exist.
    [candidatos] is kept in rowid order, which is [id] order. *)
Record Model : Type := mkModel {
  candidatos : list candidato;
  votos : votos_table
}.

Definition votos_ddl : votos_table :=
  {| vt_columns := [ mkColumn "id" DefaultAutoincrement;
                     mkColumn "candidato_id" DefaultNull;
                     mkColumn "timestamp" DefaultCurrentTimestamp ];
     vt_rows := [];
     vt_seq := 0 |}.

Definition _ensure_db (f : db_file) : Model :=
  {| candidatos := match file_candidatos f with Some cs => cs | None => [] end;
     votos := match file_votos f with Some t => t | None => votos_ddl end |}.

Definition file_of (m : Model) : db_file :=
  {| file_candidatos := Some (candidatos m); file_votos := Some (votos m) |}.

(** ** Model: queries and the insert *)

(** [SELECT id, nome, partido FROM candidatos WHERE id = ?], [fetchone].
    Integers are those SQLite holds, within 64 bits signed; beyond them the
    [sqlite3] binding raises [OverflowError] before the statement runs,
    which this embedding leaves out: what is stated of an id is stated of
    an id in that range (see [sqlite_integer]). *)
Definition get_candidato (id_ : Z) (m : Model) : option candidato :=
  find (fun c => Z.eqb (cand_id c) id_) (candidatos m).

(** The table has a column spelled [c].  SQLite also takes a name that
    differs in letter case; such tables are outside [has_column] (see
    [has_column_nocase]). *)
Definition has_column (c : string) (t : votos_table) : bool :=
  existsb (fun k => String.eqb (col_name k) c) (vt_columns t).

Fixpoint assoc {A : Type} (k : string) (l : list (string * A)) : option A :=
  match l with
  | [] => None
  | (k', v) :: l' => if String.eqb k' k then Some v else assoc k l'
  end.

(** The value a row holds in column [c]. *)
Definition valor (c : string) (r : row) : sqlval :=
  match assoc c r with Some v => v | None => SqlNull end.

Definition fill (agora : string) (rowid : Z) (vals : list (string * sqlval))
    (k : column) : string * sqlval :=
  (col_name k,
   match assoc (col_name k) vals with
   | Some v => v
   | None =>
       match col_fill k with
       | DefaultNull => SqlNull
       | DefaultAutoincrement => SqlInt rowid
       | DefaultCurrentTimestamp => SqlText agora
       end
   end).

(** [INSERT INTO votos (c1, ..., cn) VALUES (v1, ..., vn)] followed by
    [commit]: refused when a named column is not in the table. *)
Definition insert_votos (agora : string) (vals : list (string * sqlval))
    (t : votos_table) : exn + votos_table :=
  match find (fun cv => negb (has_column (fst cv) t)) vals with
  | Some cv => inl (OperationalError ("table votos has no column named " ++ fst cv))
  | None =>
      let rowid := (vt_seq t + 1)%Z in
      inr {| vt_columns := vt_columns t;
             vt_rows := vt_rows t ++ [map (fill agora rowid vals) (vt_columns t)];
             vt_seq := rowid |}
  end.

(** [gravar_voto]: the INSERT and its commit.  As in [get_candidato], an
    id beyond SQLite's integers, for which the binding raises
    [OverflowError] and nothing is written, is left out. *)
Definition gravar_voto (agora : string) (candidato_id : option Z) (m : Model)
    : exn + Model :=
  let '(voto_tipo, candidato_val) :=
    match candidato_id with
    | None => ("BRANCO", SqlNull)
    | Some cid => ("VALIDO", SqlInt cid)
    end in
  match insert_votos agora
          [("candidato_id", candidato_val); ("voto_tipo", SqlText voto_tipo)]
          (votos m) with
  | inl e => inl e
  | inr t => inr {| candidatos := candidatos m; votos := t |}
  end.

(** [GROUP BY]: SQLite sorts the rows on the grouping key, so there is one
    group per distinct key and the groups come out in the order of the keys;
    [bump] counts one more row under key [k]. *)
Fixpoint bump (k : sqlval) (groups : list (sqlval * nat)) : list (sqlval * nat) :=
  match groups with
  | [] => [(k, 1)]
  | (k', n) :: rest =>
      match sqlval_compare k k' with
      | Eq => (k', S n) :: rest
      | Lt => (k, 1) :: groups
      | Gt => (k', n) :: bump k rest
      end
  end.

Definition group_count (keys : list sqlval) : list (sqlval * nat) :=
  fold_left (fun groups k => bump k groups) keys [].

(** [SELECT candidato_id, COUNT( * ) FROM votos GROUP BY candidato_id], then
    the dict [{r[0]: r[1] for r in rows}]. *)
Definition contar_votos (m : Model) : exn + list (sqlval * nat) :=
  if has_column "candidato_id" (votos m)
  then inr (group_count (map (valor "candidato_id") (vt_rows (votos m))))
  else inl (OperationalError "no such column: candidato_id").

Fixpoint insert_by_id (c : candidato) (l : list candidato) : list candidato :=
  match l with
  | [] => [c]
  | d :: l' =>
      if (cand_id c <=? cand_id d)%Z then c :: l else d :: insert_by_id c l'
  end.

(** [SELECT id, nome, partido FROM candidatos ORDER BY id]. *)
Definition listar_candidatos (m : Model) : list candidato :=
  fold_right insert_by_id [] (candidatos m).

(** ** Start-up: the candidates seeded by the main block *)

(** One [INSERT INTO candidatos] under [try ... except: pass]: nothing
    happens when the table is missing or the id is taken. *)
Definition seed_one (f : db_file) (c : candidato) : db_file :=
  match file_candidatos f with
  | None => f
  | Some cs =>
      if existsb (fun d => Z.eqb (cand_id d) (cand_id c)) cs then f
      else {| file_candidatos := Some (insert_by_id c cs);
              file_votos := file_votos f |}
  end.

Definition seed (f : db_file) : db_file :=
  fold_left seed_one [ (13%Z, "Lula", Some "PT"); (22%Z, "Bolsonaro", Some "PL") ] f.

(** One run of the program up to [Controller()]: seed, then [Model()]. *)
Definition startup (f : db_file) : Model := _ensure_db (seed f).

Definition empty_file : db_file :=
  {| file_candidatos := None; file_votos := None |}.

(** ** The controller and its collaborators *)

(** Calls made on the view, the sound player, the message boxes and
    [print], in the order they are made. *)
Inductive effect : Type :=
| atualizar_numero (numero_text : string)
| atualizar_candidato (c : option candidato)
| play_puc
| showwarning (title msg : string)
| showinfo (title msg : string)
| showerror (title msg : string)
| askyesno (title msg : string)
| animacao_fim
| print (msg : string) (e : exn).

(** [after_pending] counts the [_reset_after_vote] callbacks that
    [animacao_fim] has handed to [view.after] and that have not run yet. *)
Record Controller : Type := mkController {
  model : Model;
  numero : string;
  after_pending : nat
}.

Record outcome (A : Type) : Type := mkOutcome {
  final : Controller;
  trace : list effect;
  result : exn + A
}.

Definition M (A : Type) : Type := Controller -> outcome A.

Definition ret {A : Type} (a : A) : M A :=
  fun c => {| final := c; trace := []; result := inr a |}.

Definition raise {A : Type} (e : exn) : M A :=
  fun c => {| final := c; trace := []; result := inl e |}.

Definition bind {A B : Type} (m : M A) (k : A -> M B) : M B :=
  fun c =>
    let o := m c in
    match result o with
    | inl e => {| final := final o; trace := trace o; result := inl e |}
    | inr a =>
        let o' := k a (final o) in
        {| final := final o'; trace := trace o ++ trace o'; result := result o' |}
    end.

Declare Scope urna_scope.
Delimit Scope urna_scope with urna.
Notation "x <- m ;; k" := (bind m (fun x => k))
  (at level 61, m at next level, right associativity) : urna_scope.
Notation "m ;; k" := (bind m (fun _ => k))
  (at level 61, right associativity) : urna_scope.
Open Scope urna_scope.

(** [try: body except Exception as e: handler e]. *)
Definition try_except (body : M unit) (handler : exn -> M unit) : M unit :=
  fun c =>
    let o := body c in
    match result o with
    | inl e =>
        let o' := handler e (final o) in
        {| final := final o'; trace := trace o ++ trace o'; result := result o' |}
    | inr _ => o
    end.

Definition emit (e : effect) : M unit :=
  fun c => {| final := c; trace := [e]; result := inr tt |}.

Definition get_numero : M string :=
  fun c => {| final := c; trace := []; result := inr (numero c) |}.

Definition set_numero (s : string) : M unit :=
  fun c => {| final := {| model := model c; numero := s;
                          after_pending := after_pending c |};
              trace := []; result := inr tt |}.

Definition model_get_candidato (cid : Z) : M (option candidato) :=
  fun c => {| final := c; trace := []; result := inr (get_candidato cid (model c)) |}.

Definition model_gravar_voto (agora : string) (candidato_id : option Z) : M unit :=
  fun c =>
    match gravar_voto agora candidato_id (model c) with
    | inl e => {| final := c; trace := []; result := inl e |}
    | inr m' => {| final := {| model := m'; numero := numero c;
                               after_pending := after_pending c |};
                   trace := []; result := inr tt |}
    end.

(** [view.animacao_fim(callback=self._reset_after_vote)]: the animation is
    played and the callback is left with [view.after]. *)
Definition view_animacao_fim : M unit :=
  fun c => {| final := {| model := model c; numero := numero c;
                          after_pending := S (after_pending c) |};
              trace := [animacao_fim]; result := inr tt |}.

(** *** Strings of digits *)

Definition is_digit (a : ascii) : bool :=
  Nat.leb 48 (nat_of_ascii a) && Nat.leb (nat_of_ascii a) 57.

Fixpoint all_digits (s : string) : bool :=
  match s with
  | EmptyString => true
  | String a s' => is_digit a && all_digits s'
  end.

(** [str.isdigit]: not empty and every character a digit. *)
Definition isdigit (s : string) : bool :=
  match s with
  | EmptyString => false
  | String _ _ => all_digits s
  end.

Fixpoint int_acc (acc : Z) (s : string) : Z :=
  match s with
  | EmptyString => acc
  | String a s' => int_acc (10 * acc + Z.of_nat (nat_of_ascii a - 48))%Z s'
  end.

(** [int(s)] on a string of decimal digits; every other string is taken to
    raise [ValueError] (Python also reads blanks, a sign and underscores,
    none of which a key of the keypad carries). *)
Definition int (s : string) : M Z :=
  if isdigit s then ret (int_acc 0 s)
  else raise (ValueError ("invalid literal for int() with base 10: '" ++ s ++ "'")).

(** *** Event handlers *)

Definition on_digit (digit : string) : M unit :=
  n <- get_numero ;;
  if Nat.leb MAX_DIGITS (String.length n) then ret tt
  else
    set_numero (n ++ digit) ;;
    emit (atualizar_numero (n ++ digit)) ;;
    try_except
      (if Nat.eqb (String.length (n ++ digit)) MAX_DIGITS then
         cid <- int (n ++ digit) ;;
         c <- model_get_candidato cid ;;
         match c with
         | Some _ => emit (atualizar_candidato c)
         | None => emit (atualizar_candidato None)
         end
       else ret tt)
      (fun e => emit (print "Erro ao buscar candidato:" e)).

Definition on_corrige : M unit :=
  set_numero "" ;;
  emit (atualizar_numero "") ;;
  emit (atualizar_candidato None).

Definition on_branco : M unit :=
  set_numero "BRANCO" ;;
  emit (atualizar_numero "BRANCO") ;;
  emit (atualizar_candidato None).

Definition on_confirma (agora : string) (resp : bool) : M unit :=
  n <- get_numero ;;
  if String.eqb n "" then emit (showwarning "Erro" "Nenhum número digitado.")
  else
    emit play_puc ;;
    if String.eqb n "BRANCO" then
      model_gravar_voto agora None ;;
      emit (showinfo "Voto" "Voto em BRANCO confirmado!") ;;
      view_animacao_fim
    else if isdigit n then
      cid <- int n ;;
      c <- model_get_candidato cid ;;
      match c with
      | Some cand =>
          model_gravar_voto agora (Some cid) ;;
          emit (showinfo "Voto" ("Voto confirmado para " ++ cand_nome cand)) ;;
          view_animacao_fim
      | None =>
          emit (askyesno "Confirmar" "Candidato não encontrado. Confirma voto NULO?") ;;
          if resp then
            model_gravar_voto agora None ;;
            emit play_puc ;;
            view_animacao_fim
          else ret tt
      end
    else emit (showerror "Erro" "Número inválido.").

Definition _reset_after_vote : M unit :=
  set_numero "" ;;
  emit (atualizar_numero "") ;;
  emit (atualizar_candidato None).

(** The callback left with [view.after] comes due. *)
Definition after_callback : M unit :=
  fun c =>
    match after_pending c with
    | O => ret tt c
    | S p => _reset_after_vote {| model := model c; numero := numero c;
                                  after_pending := p |}
    end.

(** *** The event loop *)

Inductive event : Type :=
| Digit (digit : string)
| Corrige
| Branco
| Confirma (agora : string) (resp : bool)
| AfterElapsed.

Definition handle (ev : event) : M unit :=
  match ev with
  | Digit d => on_digit d
  | Corrige => on_corrige
  | Branco => on_branco
  | Confirma agora resp => on_confirma agora resp
  | AfterElapsed => after_callback
  end.

(** [mainloop]: the events are handled one after the other; an exception
    that leaves a handler is reported by Tk and the loop goes on. *)
Definition run (evs : list event) (c : Controller) : Controller :=
  fold_left (fun c ev => final (handle ev c)) evs c.

(** A controller as [Controller.__init__] leaves it. *)
Definition new_controller (m : Model) : Controller :=
  {| model := m; numero := ""; after_pending := 0 |}.

(** ** The report: [on_relatorio] and its [salvar] *)

(** A Python dict with integer keys, in insertion order. *)
Fixpoint dict_set {V : Type} (k : Z) (v : V) (d : list (Z * V)) : list (Z * V) :=
  match d with
  | [] => [(k, v)]
  | (k', v') :: d' =>
      if Z.eqb k' k then (k', v) :: d' else (k', v') :: dict_set k v d'
  end.

Fixpoint dict_get {V : Type} (k : Z) (d : list (Z * V)) : option V :=
  match d with
  | [] => None
  | (k', v) :: d' => if Z.eqb k' k then Some v else dict_get k d'
  end.

(** [{c[0]: (c[1], c[2]) for c in self.model.listar_candidatos()}]. *)
Definition candidatos_dict (m : Model) : list (Z * (string * option string)) :=
  fold_left (fun d c => dict_set (cand_id c) (cand_nome c, cand_partido c) d)
            (listar_candidatos m) [].

(** [cid in votos]. *)
Definition in_votos (cid : sqlval) (votos_ : list (sqlval * nat)) : bool :=
  existsb (fun kv => sqlval_eqb (fst kv) cid) votos_.

(** [candidatos.get(cid, ("<desconhecido>", ""))]: a key that is not an
    integer equals no key of the dict. *)
Definition nome_partido (cid : sqlval) (cands : list (Z * (string * option string)))
    : string * option string :=
  match cid with
  | SqlInt z =>
      match dict_get z cands with
      | Some np => np
      | None => ("<desconhecido>", Some "")
      end
  | _ => ("<desconhecido>", Some "")
  end.

(** A cell given to [csv.writer]: [None], an [int] or a [str]. *)
Definition cell : Type := sqlval.

Definition cell_of_partido (p : option string) : cell :=
  match p with Some s => SqlText s | None => SqlNull end.

Definition cell_of_count (n : nat) : cell := SqlInt (Z.of_nat n).

Definition csv_header : list cell :=
  [SqlText "candidato_id"; SqlText "nome"; SqlText "partido"; SqlText "votos"].

Definition csv_row (kv : sqlval * nat) (cands : list (Z * (string * option string)))
    : list cell :=
  match fst kv with
  | SqlNull => [SqlText "BRANCO"; SqlText "BRANCO"; SqlText ""; cell_of_count (snd kv)]
  | cid =>
      let '(nome, partido) := nome_partido cid cands in
      [cid; SqlText nome; cell_of_partido partido; cell_of_count (snd kv)]
  end.

(** The rows [salvar] hands to [writer.writerow], in order, when a path was
    chosen and the file could be opened. *)
Definition salvar_rows (votos_ : list (sqlval * nat))
    (cands : list (Z * (string * option string))) : list (list cell) :=
  csv_header :: map (fun kv => csv_row kv cands) votos_.

(** A line of the report window, by the values its f-string formats. *)
Inductive report_line : Type :=
| LineBrancos (count : nat)
| LineCandidato (cid : sqlval) (nome : string) (partido : option string) (count : nat)
| LineTotal (total : nat).

Definition line_of_vote (kv : sqlval * nat)
    (cands : list (Z * (string * option string))) : report_line :=
  match fst kv with
  | SqlNull => LineBrancos (snd kv)
  | cid =>
      let '(nome, partido) := nome_partido cid cands in
      LineCandidato cid nome partido (snd kv)
  end.

(** The second loop of [on_relatorio]: candidates without votes. *)
Definition lines_without_votes (votos_ : list (sqlval * nat))
    (cands : list (Z * (string * option string))) : list report_line :=
  map (fun e => LineCandidato (SqlInt (fst e)) (fst (snd e)) (snd (snd e)) 0)
      (filter (fun e => negb (in_votos (SqlInt (fst e)) votos_)) cands).

Definition total_votos (votos_ : list (sqlval * nat)) : nat :=
  fold_left (fun total kv => total + snd kv) votos_ 0.

Definition report_lines (votos_ : list (sqlval * nat))
    (cands : list (Z * (string * option string))) : list report_line :=
  map (fun kv => line_of_vote kv cands) votos_
  ++ lines_without_votes votos_ cands
  ++ [LineTotal (total_votos votos_)].

Record report : Type := mkReport {
  rep_lines : list report_line;
  rep_csv : list (list cell)
}.

Definition on_relatorio (m : Model) : exn + report :=
  match contar_votos m with
  | inl e => inl e
  | inr votos_ =>
      let cands := candidatos_dict m in
      inr {| rep_lines := report_lines votos_ cands;
             rep_csv := salvar_rows votos_ cands |}
  end.

(** ** Vocabulary of the specification, read off the controller *)

(** The session states the specification names. *)
Definition Idle (c : Controller) : Prop := numero c = "".

Definition Complete (c : Controller) : Prop :=
  isdigit (numero c) = true /\ String.length (numero c) = MAX_DIGITS.

(** The ledger: the rows of [votos], oldest first. *)
Definition ledger (c : Controller) : list row := vt_rows (votos (model c)).

(** The kinds of record [gravar_voto] writes. *)
Definition valid_record (n : Z) (r : row) : Prop :=
  valor "candidato_id" r = SqlInt n /\ valor "voto_tipo" r = SqlText "VALIDO".

Definition blank_record (r : row) : Prop :=
  valor "candidato_id" r = SqlNull /\ valor "voto_tipo" r = SqlText "BRANCO".

(** The table takes the INSERT of [gravar_voto]. *)
Definition accepts_votes (m : Model) : Prop :=
  has_column "candidato_id" (votos m) = true /\
  has_column "voto_tipo" (votos m) = true.

Definition lookup (k : sqlval) (d : list (sqlval * nat)) : option nat :=
  option_map snd (find (fun kv => sqlval_eqb (fst kv) k) d).

Definition sum_counts (d : list (sqlval * nat)) : nat :=
  fold_right (fun kv acc => snd kv + acc) 0 d.

(** Runs of appends: each call of [gravar_voto] either completes or raises;
    the second component counts the calls that completed. *)
Fixpoint gravar_votos (calls : list (string * option Z)) (m : Model) : Model * nat :=
  match calls with
  | [] => (m, 0)
  | (agora, cid) :: rest =>
      match gravar_voto agora cid m with
      | inl _ => gravar_votos rest m
      | inr m' => let (m'', k) := gravar_votos rest m' in (m'', S k)
      end
  end.

(** The values [gravar_voto] binds to its INSERT. *)
Definition voto_vals (candidato_id : option Z) : list (string * sqlval) :=
  match candidato_id with
  | None => [("candidato_id", SqlNull); ("voto_tipo", SqlText "BRANCO")]
  | Some cid => [("candidato_id", SqlInt cid); ("voto_tipo", SqlText "VALIDO")]
  end.

(** The row it adds to a table that takes the INSERT. *)
Definition voto_row (agora : string) (candidato_id : option Z) (t : votos_table) : row :=
  map (fill agora (vt_seq t + 1)%Z (voto_vals candidato_id)) (vt_columns t).

Definition with_vote (agora : string) (candidato_id : option Z) (m : Model) : Model :=
  {| candidatos := candidatos m;
     votos := {| vt_columns := vt_columns (votos m);
                 vt_rows := vt_rows (votos m) ++ [voto_row agora candidato_id (votos m)];
                 vt_seq := (vt_seq (votos m) + 1)%Z |} |}.

(** The stores used in examples: [votos.db] after the program has been
    started twice on an empty directory, and a provisioned file whose
    [votos] table carries the [voto_tipo] column. *)
Definition fresh_store : Model := startup (file_of (startup empty_file)).

Definition votos_with_tipo : votos_table :=
  {| vt_columns := [ mkColumn "id" DefaultAutoincrement;
                     mkColumn "candidato_id" DefaultNull;
                     mkColumn "voto_tipo" DefaultNull;
                     mkColumn "timestamp" DefaultCurrentTimestamp ];
     vt_rows := [];
     vt_seq := 0 |}.

Definition provisioned_store : Model :=
  {| candidatos := [ (13%Z, "A", Some "P1"); (22%Z, "B", Some "P2") ];
     votos := votos_with_tipo |}.

(** The tally the specification expects for the ballots
    [Valid(13); Blank; Valid(13); Null]: candidate 13 twice, candidate 22
    absent or at zero, and Blank and Null once each under two keys. *)
Definition blank_and_null_apart (tally : list (sqlval * nat)) : Prop :=
  lookup (SqlInt 13) tally = Some 2 /\
  (lookup (SqlInt 22) tally = None \/ lookup (SqlInt 22) tally = Some 0) /\
  exists blank null : sqlval,
    blank <> null /\ lookup blank tally = Some 1 /\ lookup null tally = Some 1.

(** The [gravar_voto] calls [on_confirma] makes for those four ballots. *)
Definition example_calls (t1 t2 t3 t4 : string) : list (string * option Z) :=
  [ (t1, Some 13%Z); (t2, None); (t3, Some 13%Z); (t4, None) ].



(** ** Vocabulary for the further properties *)

(** The number of rows of [votos] that hold [k] in [candidato_id]. *)
Definition count_rows (k : sqlval) (m : Model) : nat :=
  List.length (filter (fun v => sqlval_eqb v k)
                      (map (valor "candidato_id") (vt_rows (votos m)))).

(** The keys of a tally come in strictly ascending order. *)
Definition keys_ascending (d : list (sqlval * nat)) : Prop :=
  StronglySorted (fun a b => sqlval_compare (fst a) (fst b) = Lt) d.

Definition by_id_ascending (l : list candidato) : Prop :=
  StronglySorted (fun a b => (cand_id a <= cand_id b)%Z) l.

(** What the keypad of [UrnaView] passes to [on_digit]: one of the
    characters 0 to 9. *)
Definition keypad_digit (d : string) : Prop :=
  exists a : ascii, d = String a "" /\ is_digit a = true.

Definition keypad_event (ev : event) : Prop :=
  match ev with
  | Digit d => keypad_digit d
  | _ => True
  end.

(** The values [numero] takes in a session driven from the keypad. *)
Definition numero_ok (s : string) : Prop :=
  s = "BRANCO" \/ (all_digits s = true /\ String.length s <= MAX_DIGITS).

Definition is_confirma (ev : event) : bool :=
  match ev with
  | Confirma _ _ => true
  | _ => false
  end.

(** A row the session may write: a blank vote, or a valid vote for a
    candidate of the registry [m]. *)
Definition legitimate_record (m : Model) (r : row) : Prop :=
  blank_record r \/
  exists n cand, valid_record n r /\ get_candidato n m = Some cand.

(** The integers SQLite stores and the [sqlite3] binding accepts. *)
Definition sqlite_integer (z : Z) : Prop :=
  (- 2 ^ 63 <= z < 2 ^ 63)%Z.

Definition sqlite_integer_id (candidato_id : option Z) : Prop :=
  match candidato_id with
  | Some cid => sqlite_integer cid
  | None => True
  end.

(** Column names as SQLite compares them: ASCII letters fold to lower
    case. *)
Definition ascii_lower (a : ascii) : ascii :=
  if Nat.leb 65 (nat_of_ascii a) && Nat.leb (nat_of_ascii a) 90
  then ascii_of_nat (nat_of_ascii a + 32)
  else a.

Fixpoint lower (s : string) : string :=
  match s with
  | EmptyString => EmptyString
  | String a s' => String (ascii_lower a) (lower s')
  end.

Definition has_column_nocase (c : string) (t : votos_table) : bool :=
  existsb (fun k => String.eqb (lower (col_name k)) (lower c)) (vt_columns t).

(** The value [gravar_voto] stores in [candidato_id]. *)
Definition candidato_val (candidato_id : option Z) : sqlval :=
  match candidato_id with
  | Some cid => SqlInt cid
  | None => SqlNull
  end.

(** Unfolds the operations of [M] in a handler applied to a controller. *)
Ltac run_monad :=
  unfold bind, ret, raise, emit, get_numero, set_numero, model_get_candidato,
    model_gravar_voto, view_animacao_fim, try_except, int; simpl.

(** * Facts about the vote store *)

Section StoreFacts.

Variable agora : string.
Variable candidato_id : option Z.

Lemma valor_fill (c : string) (v : sqlval) (rowid : Z)
    (vals : list (string * sqlval)) (cols : list column) :
  existsb (fun k => String.eqb (col_name k) c) cols = true ->
  assoc c vals = Some v ->
  valor c (map (fill agora rowid vals) cols) = v.
Proof.
  intros Hcol Hval. unfold valor.
  induction cols as [|k cols IH]; simpl in *; [discriminate|].
  destruct (String.eqb (col_name k) c) eqn:E.
  - apply String.eqb_eq in E. rewrite E, Hval. reflexivity.
  - simpl in Hcol. auto.
Qed.

Lemma insert_votos_accepted (m : Model) :
  accepts_votes m ->
  insert_votos agora (voto_vals candidato_id) (votos m)
  = inr (votos (with_vote agora candidato_id m)).
Proof.
  intros [Hc Ht]. unfold insert_votos.
  destruct candidato_id; simpl; rewrite Hc, Ht; reflexivity.
Qed.

Lemma gravar_voto_accepted (m : Model) :
  accepts_votes m ->
  gravar_voto agora candidato_id m = inr (with_vote agora candidato_id m).
Proof.
  intros H. pose proof (insert_votos_accepted H) as Hi.
  unfold gravar_voto. destruct candidato_id; simpl in *; rewrite Hi; reflexivity.
Qed.

Lemma gravar_voto_refused (m : Model) :
  has_column "voto_tipo" (votos m) = false ->
  exists msg, gravar_voto agora candidato_id m = inl (OperationalError msg).
Proof.
  intros H. unfold gravar_voto, insert_votos.
  destruct candidato_id; simpl; rewrite H;
    destruct (has_column "candidato_id" (votos m)); simpl; eauto.
Qed.

(** A call of [gravar_voto] that completes adds one row at the end and
    changes nothing else; a call that raises leaves no model behind. *)
Lemma gravar_voto_inr (m m' : Model) :
  gravar_voto agora candidato_id m = inr m' ->
  accepts_votes m /\ m' = with_vote agora candidato_id m.
Proof.
  intros H.
  assert (Ha : accepts_votes m).
  { unfold accepts_votes. unfold gravar_voto, insert_votos in H.
    destruct candidato_id; simpl in H;
      destruct (has_column "candidato_id" (votos m));
      destruct (has_column "voto_tipo" (votos m)); simpl in H;
      try discriminate; auto. }
  split; [exact Ha|].
  rewrite (gravar_voto_accepted Ha) in H. congruence.
Qed.

Lemma valor_voto_row_candidato (t : votos_table) :
  has_column "candidato_id" t = true ->
  valor "candidato_id" (voto_row agora candidato_id t)
  = match candidato_id with Some cid => SqlInt cid | None => SqlNull end.
Proof.
  intros H. unfold voto_row. apply valor_fill; [exact H|].
  destruct candidato_id; reflexivity.
Qed.

Lemma valor_voto_row_tipo (t : votos_table) :
  has_column "voto_tipo" t = true ->
  valor "voto_tipo" (voto_row agora candidato_id t)
  = SqlText (match candidato_id with Some _ => "VALIDO" | None => "BRANCO" end).
Proof.
  intros H. unfold voto_row. apply valor_fill; [exact H|].
  destruct candidato_id; reflexivity.
Qed.

End StoreFacts.

Lemma sum_counts_bump (k : sqlval) (groups : list (sqlval * nat)) :
  sum_counts (bump k groups) = S (sum_counts groups).
Proof.
  induction groups as [|[k' n] rest IH]; simpl; [reflexivity|].
  destruct (sqlval_compare k k'); simpl; [lia | lia | rewrite IH; lia].
Qed.

Lemma sum_counts_fold (keys : list sqlval) (groups : list (sqlval * nat)) :
  sum_counts (fold_left (fun g k => bump k g) keys groups)
  = List.length keys + sum_counts groups.
Proof.
  revert groups. induction keys as [|k keys IH]; intros groups; simpl; [reflexivity|].
  rewrite IH, sum_counts_bump. lia.
Qed.

Lemma sum_counts_group_count (keys : list sqlval) :
  sum_counts (group_count keys) = List.length keys.
Proof. unfold group_count. rewrite sum_counts_fold. simpl. lia. Qed.

(** The tally of any store that has the grouped column adds up to the
    number of rows. *)
Lemma contar_votos_total (m : Model) :
  has_column "candidato_id" (votos m) = true ->
  exists tally, contar_votos m = inr tally /\
                sum_counts tally = List.length (vt_rows (votos m)).
Proof.
  intros H. unfold contar_votos. rewrite H. eexists. split; [reflexivity|].
  rewrite sum_counts_group_count. apply List.length_map.
Qed.

Lemma gravar_votos_rows (calls : list (string * option Z)) (m : Model) :
  vt_columns (votos (fst (gravar_votos calls m))) = vt_columns (votos m) /\
  List.length (vt_rows (votos (fst (gravar_votos calls m))))
  = List.length (vt_rows (votos m)) + snd (gravar_votos calls m).
Proof.
  revert m. induction calls as [|[agora cid] rest IH]; intros m; simpl.
  - split; [reflexivity | lia].
  - destruct (gravar_voto agora cid m) as [e|m'] eqn:E.
    + apply IH.
    + apply gravar_voto_inr in E. destruct E as [_ ->].
      specialize (IH (with_vote agora cid m)).
      destruct (gravar_votos rest (with_vote agora cid m)) as [m'' k].
      simpl in *. destruct IH as [IH1 IH2]. split; [exact IH1|].
      rewrite IH2, List.length_app. simpl. lia.
Qed.

(** ** The tally *)

(** C4. Starting from an empty ledger whose table has the grouped column
    [candidato_id] (every table [_ensure_db] creates has it), after any
    sequence of [gravar_voto] calls the counts of [contar_votos] summed over
    all keys equal the number of calls that completed: no ballot is lost and
    none is counted twice. *)
Theorem tally_sums_to_completed_appends
    (calls : list (string * option Z)) (m0 : Model) :
  vt_rows (votos m0) = [] ->
  has_column "candidato_id" (votos m0) = true ->
  exists tally,
    contar_votos (fst (gravar_votos calls m0)) = inr tally /\
    sum_counts tally = snd (gravar_votos calls m0).
Proof.
  intros Hempty Hcol.
  destruct (gravar_votos_rows calls m0) as [Hcols Hlen].
  destruct (contar_votos_total (fst (gravar_votos calls m0))) as [tally [Ht Hs]].
  { unfold has_column in *. rewrite Hcols. exact Hcol. }
  exists tally. split; [exact Ht|].
  rewrite Hs, Hlen, Hempty. reflexivity.
Qed.

Lemma tally_sums_to_completed_appends_witness :
  exists tally,
    contar_votos (fst (gravar_votos (example_calls "t1" "t2" "t3" "t4")
                                    provisioned_store)) = inr tally /\
    sum_counts tally = 4.
Proof.
  apply (@tally_sums_to_completed_appends
           (example_calls "t1" "t2" "t3" "t4") provisioned_store);
    reflexivity.
Defined.

(** C1, as the specification states it, fails: on the provisioned store the
    four calls complete, and the tally has no two distinct keys counted once
    each. *)
Lemma tally_example_not_apart :
  exists tally,
    snd (gravar_votos (example_calls "t1" "t2" "t3" "t4") provisioned_store) = 4 /\
    contar_votos (fst (gravar_votos (example_calls "t1" "t2" "t3" "t4")
                                    provisioned_store)) = inr tally /\
    ~ blank_and_null_apart tally.
Proof.
  exists [(SqlNull, 2); (SqlInt 13, 2)].
  split; [reflexivity|]. split; [reflexivity|].
  intros (_ & _ & blank & null & _ & Hb & _).
  unfold lookup, sqlval_eqb in Hb.
  destruct blank as [|z|s]; simpl in Hb; try discriminate Hb.
  destruct z as [|p|p]; try discriminate Hb.
  destruct (13 ?= p)%positive; discriminate Hb.
Qed.

(** C1, amended. For every store whose [votos] table is empty and takes the
    INSERT, after [gravar_voto(13)], [gravar_voto(None)] for the blank ballot,
    [gravar_voto(13)] and [gravar_voto(None)] for the null ballot, all four
    calls complete and [contar_votos] returns exactly two entries: the key
    [None] with 2 and the key 13 with 2.  Blank and Null share the key
    [None]; candidate 22 is absent. *)
Theorem tally_example_merges_blank_and_null
    (m : Model) (t1 t2 t3 t4 : string) :
  vt_rows (votos m) = [] ->
  accepts_votes m ->
  snd (gravar_votos (example_calls t1 t2 t3 t4) m) = 4 /\
  contar_votos (fst (gravar_votos (example_calls t1 t2 t3 t4) m))
  = inr [(SqlNull, 2); (SqlInt 13, 2)].
Proof.
  intros Hempty Hacc. unfold example_calls. simpl.
  rewrite (gravar_voto_accepted t1 (Some 13%Z) Hacc).
  rewrite (gravar_voto_accepted t2 None (m := with_vote t1 (Some 13%Z) m) Hacc).
  rewrite (gravar_voto_accepted t3 (Some 13%Z)
             (m := with_vote t2 None (with_vote t1 (Some 13%Z) m)) Hacc).
  rewrite (gravar_voto_accepted t4 None
             (m := with_vote t3 (Some 13%Z)
                     (with_vote t2 None (with_vote t1 (Some 13%Z) m))) Hacc).
  simpl. split; [reflexivity|].
  destruct Hacc as [Hc Ht].
  unfold contar_votos. simpl. unfold has_column at 1. simpl.
  fold (has_column "candidato_id" (votos m)). rewrite Hc, Hempty. simpl.
  rewrite !valor_voto_row_candidato by exact Hc.
  reflexivity.
Qed.

Lemma tally_example_merges_blank_and_null_witness :
  snd (gravar_votos (example_calls "t1" "t2" "t3" "t4") provisioned_store) = 4 /\
  contar_votos (fst (gravar_votos (example_calls "t1" "t2" "t3" "t4")
                                  provisioned_store))
  = inr [(SqlNull, 2); (SqlInt 13, 2)].
Proof.
  apply (@tally_example_merges_blank_and_null provisioned_store "t1" "t2" "t3" "t4").
  - reflexivity.
  - split; reflexivity.
Defined.

(** * Facts about the session *)

Lemma isdigit_not_empty (s : string) : isdigit s = true -> String.eqb s "" = false.
Proof. destruct s; [discriminate | reflexivity]. Qed.

Lemma isdigit_not_branco (s : string) : isdigit s = true -> String.eqb s "BRANCO" = false.
Proof.
  intros H. destruct (String.eqb s "BRANCO") eqn:E; [|reflexivity].
  apply String.eqb_eq in E. subst s. discriminate H.
Qed.

Section Confirma.

Variable agora : string.
Variable resp : bool.
Variable c : Controller.

(** The guard of [on_confirma]: nothing typed. *)
Lemma on_confirma_idle :
  numero c = "" ->
  on_confirma agora resp c
  = {| final := c;
       trace := [showwarning "Erro" "Nenhum número digitado."];
       result := inr tt |}.
Proof. intros H. unfold on_confirma. run_monad. rewrite H. reflexivity. Qed.

Lemma on_confirma_branco :
  numero c = "BRANCO" ->
  accepts_votes (model c) ->
  on_confirma agora resp c
  = {| final := {| model := with_vote agora None (model c);
                   numero := "BRANCO";
                   after_pending := S (after_pending c) |};
       trace := [play_puc; showinfo "Voto" "Voto em BRANCO confirmado!"; animacao_fim];
       result := inr tt |}.
Proof.
  intros H Hacc. unfold on_confirma. run_monad. rewrite H. simpl.
  rewrite (gravar_voto_accepted agora None Hacc). simpl. rewrite H. reflexivity.
Qed.

Lemma on_confirma_matched (cand : candidato) :
  isdigit (numero c) = true ->
  get_candidato (int_acc 0 (numero c)) (model c) = Some cand ->
  accepts_votes (model c) ->
  on_confirma agora resp c
  = {| final := {| model := with_vote agora (Some (int_acc 0 (numero c))) (model c);
                   numero := numero c;
                   after_pending := S (after_pending c) |};
       trace := [play_puc;
                 showinfo "Voto" ("Voto confirmado para " ++ cand_nome cand);
                 animacao_fim];
       result := inr tt |}.
Proof.
  intros Hd Hc Hacc. unfold on_confirma. run_monad.
  rewrite (isdigit_not_empty _ Hd), (isdigit_not_branco _ Hd), Hd. simpl.
  rewrite Hc. simpl.
  rewrite (gravar_voto_accepted agora (Some (int_acc 0 (numero c))) Hacc).
  reflexivity.
Qed.

Lemma on_confirma_unmatched :
  isdigit (numero c) = true ->
  get_candidato (int_acc 0 (numero c)) (model c) = None ->
  on_confirma agora false c
  = {| final := c;
       trace := [play_puc;
                 askyesno "Confirmar" "Candidato não encontrado. Confirma voto NULO?"];
       result := inr tt |}.
Proof.
  intros Hd Hc. unfold on_confirma. run_monad.
  rewrite (isdigit_not_empty _ Hd), (isdigit_not_branco _ Hd), Hd. simpl.
  rewrite Hc. reflexivity.
Qed.

(** Whatever CONFIRMA does, it changes neither the typed number nor the
    candidates, and the model changes only by a completed [gravar_voto]. *)
Lemma on_confirma_frame :
  numero (final (on_confirma agora resp c)) = numero c /\
  (model (final (on_confirma agora resp c)) = model c \/
   exists cid, gravar_voto agora cid (model c)
               = inr (model (final (on_confirma agora resp c)))).
Proof.
  unfold on_confirma. run_monad.
  destruct (String.eqb (numero c) ""); simpl; [auto|].
  destruct (String.eqb (numero c) "BRANCO"); simpl.
  - destruct (gravar_voto agora None (model c)) eqn:E; simpl; eauto.
  - destruct (isdigit (numero c)); simpl; [|auto].
    destruct (get_candidato (int_acc 0 (numero c)) (model c)); simpl.
    + destruct (gravar_voto agora (Some (int_acc 0 (numero c))) (model c)) eqn:E;
        simpl; eauto.
    + destruct resp; simpl; [|auto].
      destruct (gravar_voto agora None (model c)) eqn:E; simpl; eauto.
Qed.

End Confirma.

(** No handler but [on_confirma] touches the model. *)
Lemma handle_model (ev : event) (c : Controller) :
  model (final (handle ev c)) = model c \/
  exists agora cid, gravar_voto agora cid (model c) = inr (model (final (handle ev c))).
Proof.
  destruct ev as [d| | |agora resp|]; cbn [handle].
  - left. unfold on_digit, bind, get_numero. cbn [result final trace].
    destruct (Nat.leb MAX_DIGITS (String.length (numero c))); [reflexivity|].
    unfold try_except, int, bind.
    destruct (Nat.eqb (String.length (numero c ++ d)) MAX_DIGITS); [|reflexivity].
    destruct (isdigit (numero c ++ d)); [|reflexivity].
    cbn [result final trace ret set_numero emit model_get_candidato model].
    destruct (get_candidato (int_acc 0 (numero c ++ d)) (model c)); reflexivity.
  - left. reflexivity.
  - left. reflexivity.
  - destruct (on_confirma_frame agora resp c) as [_ [H|[cid H]]]; eauto.
  - left. unfold after_callback. destruct (after_pending c); reflexivity.
Qed.

(** On a table without the [voto_tipo] column no event changes the model. *)
Lemma run_refused (evs : list event) (c : Controller) :
  has_column "voto_tipo" (votos (model c)) = false ->
  model (run evs c) = model c.
Proof.
  revert c. induction evs as [|ev evs IH]; intros c H; simpl; [reflexivity|].
  assert (Hm : model (final (handle ev c)) = model c).
  { destruct (handle_model ev c) as [Hm|[agora [cid Hm]]]; [exact Hm|].
    destruct (gravar_voto_refused agora cid (model c) H) as [msg Hr].
    rewrite Hr in Hm. discriminate Hm. }
  unfold run in IH. rewrite IH; rewrite Hm; [reflexivity | exact H].
Qed.


Lemma run_cons (ev : event) (evs : list event) (c : Controller) :
  run (ev :: evs) c = run evs (final (handle ev c)).
Proof. reflexivity. Qed.




(** ** Confirmation *)




(** C10. CONFIRMA on an Idle session: the warning is shown, the handler
    returns without raising, and the controller, ledger included, is what it
    was. *)
Theorem confirma_on_idle_is_rejected (agora : string) (resp : bool) (c : Controller) :
  Idle c ->
  final (on_confirma agora resp c) = c /\
  ledger (final (on_confirma agora resp c)) = ledger c /\
  result (on_confirma agora resp c) = inr tt /\
  trace (on_confirma agora resp c) = [showwarning "Erro" "Nenhum número digitado."].
Proof.
  intros H. rewrite (on_confirma_idle agora resp c H). repeat split.
Qed.

Lemma confirma_on_idle_is_rejected_witness :
  final (on_confirma "t" true (new_controller fresh_store)) = new_controller fresh_store /\
  ledger (final (on_confirma "t" true (new_controller fresh_store)))
  = ledger (new_controller fresh_store) /\
  result (on_confirma "t" true (new_controller fresh_store)) = inr tt /\
  trace (on_confirma "t" true (new_controller fresh_store))
  = [showwarning "Erro" "Nenhum número digitado."].
Proof.
  apply (@confirma_on_idle_is_rejected "t" true (new_controller fresh_store)).
  reflexivity.
Defined.

(** C6, as the specification states it, fails: 99 matches no candidate, the
    voter answers no, and the digits are still there. *)
Lemma declined_null_keeps_digits :
  Complete (run [Digit "9"; Digit "9"] (new_controller provisioned_store)) /\
  get_candidato 99 (model (run [Digit "9"; Digit "9"]
                               (new_controller provisioned_store))) = None /\
  ~ Idle (final (on_confirma "t" false
                   (run [Digit "9"; Digit "9"] (new_controller provisioned_store)))).
Proof.
  split; [split; reflexivity|]. split; [reflexivity|].
  unfold Idle. simpl. discriminate.
Qed.

(** C6, amended. In a Complete session whose digits match no registered
    candidate, CONFIRMA followed by a negative answer to the null-vote
    question adds no row and leaves the session as it was: the digits stay
    and the session is still Complete. *)
Theorem declined_null_changes_nothing (agora : string) (c : Controller) :
  Complete c ->
  get_candidato (int_acc 0 (numero c)) (model c) = None ->
  final (on_confirma agora false c) = c /\
  ledger (final (on_confirma agora false c)) = ledger c /\
  Complete (final (on_confirma agora false c)) /\
  result (on_confirma agora false c) = inr tt.
Proof.
  intros Hcomp Hc. pose proof Hcomp as [Hd _].
  rewrite (on_confirma_unmatched agora c Hd Hc). simpl. auto.
Qed.

Lemma declined_null_changes_nothing_witness :
  let c := run [Digit "9"; Digit "9"] (new_controller provisioned_store) in
  final (on_confirma "t" false c) = c /\
  ledger (final (on_confirma "t" false c)) = ledger c /\
  Complete (final (on_confirma "t" false c)) /\
  result (on_confirma "t" false c) = inr tt.
Proof.
  apply (@declined_null_changes_nothing "t"
           (run [Digit "9"; Digit "9"] (new_controller provisioned_store))).
  - split; reflexivity.
  - reflexivity.
Defined.

(** ** Correction *)

(** C9. CORRIGE, in any state of the session and of the store: the typed
    number is emptied, the session is Idle, the model is not touched and
    nothing is raised. *)
Theorem corrige_clears_and_keeps_ledger (c : Controller) :
  numero (final (on_corrige c)) = "" /\
  Idle (final (on_corrige c)) /\
  model (final (on_corrige c)) = model c /\
  ledger (final (on_corrige c)) = ledger c /\
  result (on_corrige c) = inr tt.
Proof. repeat split. Qed.

(** ** A store created by [_ensure_db] *)

(** C3. When the file has no [votos] table, the table [_ensure_db] creates
    has the columns [id], [candidato_id] and [timestamp] only; every call of
    [gravar_voto] on it raises, naming the missing column [voto_tipo]; no
    sequence of calls adds a row, and no sequence of events of a session
    either. *)
Theorem fresh_store_records_no_vote (f : db_file) :
  file_votos f = None ->
  map col_name (vt_columns (votos (_ensure_db f))) = ["id"; "candidato_id"; "timestamp"] /\
  (forall agora candidato_id,
     gravar_voto agora candidato_id (_ensure_db f)
     = inl (OperationalError "table votos has no column named voto_tipo")) /\
  (forall calls, gravar_votos calls (_ensure_db f) = (_ensure_db f, 0)) /\
  (forall evs, ledger (run evs (new_controller (_ensure_db f))) = []).
Proof.
  intros H.
  assert (Hg : forall agora candidato_id,
             gravar_voto agora candidato_id (_ensure_db f)
             = inl (OperationalError "table votos has no column named voto_tipo")).
  { intros agora [cid|]; unfold gravar_voto, _ensure_db; rewrite H; reflexivity. }
  split; [unfold _ensure_db; rewrite H; reflexivity|].
  split; [exact Hg|]. split.
  - induction calls as [|[agora cid] calls IH]; simpl; [reflexivity|].
    rewrite Hg. exact IH.
  - intros evs. unfold ledger. rewrite run_refused.
    + unfold _ensure_db. simpl. rewrite H. reflexivity.
    + unfold _ensure_db. simpl. rewrite H. reflexivity.
Qed.

Lemma fresh_store_records_no_vote_witness :
  map col_name (vt_columns (votos (_ensure_db empty_file)))
  = ["id"; "candidato_id"; "timestamp"] /\
  (forall agora candidato_id,
     gravar_voto agora candidato_id (_ensure_db empty_file)
     = inl (OperationalError "table votos has no column named voto_tipo")) /\
  (forall calls, gravar_votos calls (_ensure_db empty_file) = (_ensure_db empty_file, 0)) /\
  (forall evs, ledger (run evs (new_controller (_ensure_db empty_file))) = []).
Proof.
  apply (@fresh_store_records_no_vote empty_file). reflexivity.
Defined.

(** ** Votes on a store that takes the INSERT *)

Lemma on_digit_types (d : string) (c : Controller) :
  String.length (numero c) < MAX_DIGITS ->
  final (on_digit d c)
  = {| model := model c; numero := numero c ++ d; after_pending := after_pending c |}.
Proof.
  intros H. unfold on_digit, bind, get_numero. cbn [result final trace].
  destruct (Nat.leb MAX_DIGITS (String.length (numero c))) eqn:E.
  { apply Nat.leb_le in E. lia. }
  unfold try_except, int, bind.
  destruct (Nat.eqb (String.length (numero c ++ d)) MAX_DIGITS); [|reflexivity].
  destruct (isdigit (numero c ++ d)); [|reflexivity].
  cbn [result final trace ret set_numero emit model_get_candidato model].
  destruct (get_candidato (int_acc 0 (numero c ++ d)) (model c)); reflexivity.
Qed.

Lemma get_candidato_id (n : Z) (m : Model) (cand : candidato) :
  get_candidato n m = Some cand -> cand_id cand = n /\ In cand (candidatos m).
Proof.
  unfold get_candidato. intros H. apply find_some in H. destruct H as [Hin Heq].
  apply Z.eqb_eq in Heq. auto.
Qed.

(** From an Idle session, the two digits of a registered number and then
    CONFIRMA: one row is added, a valid vote for that number, and the
    callback left with the view empties the typed number. *)
Lemma valid_vote_recorded (c : Controller) (d1 d2 : ascii)
    (agora : string) (resp : bool) (cand : candidato) :
  Idle c ->
  is_digit d1 = true -> is_digit d2 = true ->
  get_candidato (int_acc 0 (String d1 (String d2 ""))) (model c) = Some cand ->
  accepts_votes (model c) ->
  (exists r,
     ledger (run [Digit (String d1 ""); Digit (String d2 ""); Confirma agora resp] c)
     = ledger c ++ [r] /\
     valid_record (cand_id cand) r) /\
  Idle (run [Digit (String d1 ""); Digit (String d2 ""); Confirma agora resp;
             AfterElapsed] c).
Proof.
  intros Hidle H1 H2 Hc Hacc. unfold Idle in Hidle.
  destruct (get_candidato_id _ _ Hc) as [Hid _].
  rewrite !run_cons. cbn [handle run fold_left].
  rewrite (@on_digit_types (String d1 "") c)
    by (rewrite Hidle; simpl; unfold MAX_DIGITS; lia).
  rewrite on_digit_types
    by (cbn [numero]; rewrite Hidle; simpl; unfold MAX_DIGITS; lia).
  cbn [numero model after_pending]. rewrite Hidle.
  change (("" ++ String d1 "") ++ String d2 "")%string with (String d1 (String d2 "")).
  match goal with
  | |- context [on_confirma agora resp ?c1] =>
      rewrite (@on_confirma_matched agora resp c1 cand)
  end.
  - cbn [final numero model after_pending]. split.
    + eexists. split; [reflexivity|]. rewrite Hid. destruct Hacc as [Ha Ht]. split.
      * apply (valor_voto_row_candidato agora (Some (int_acc 0 (String d1 (String d2 ""))))).
        exact Ha.
      * apply (valor_voto_row_tipo agora (Some (int_acc 0 (String d1 (String d2 ""))))).
        exact Ht.
    + reflexivity.
  - simpl. rewrite H1, H2. reflexivity.
  - exact Hc.
  - exact Hacc.
Qed.

(** BRANCO and then CONFIRMA, whatever was typed before: one row is added,
    with no candidate and the type BRANCO. *)
Lemma blank_vote_recorded (c : Controller) (agora : string) (resp : bool) :
  accepts_votes (model c) ->
  exists r,
    ledger (run [Branco; Confirma agora resp] c) = ledger c ++ [r] /\
    blank_record r.
Proof.
  intros Hacc. rewrite !run_cons. cbn [handle run fold_left].
  match goal with
  | |- context [on_confirma agora resp ?c1] =>
      rewrite (@on_confirma_branco agora resp c1)
  end.
  - eexists. split; [reflexivity|]. destruct Hacc as [Ha Ht]. split.
    + apply (valor_voto_row_candidato agora None). exact Ha.
    + apply (valor_voto_row_tipo agora None). exact Ht.
  - reflexivity.
  - exact Hacc.
Qed.

(** The four ballots of the example, cast through a session, are the four
    calls of [example_calls]. *)
Lemma example_session_makes_example_calls :
  model (run [ Digit "1"; Digit "3"; Confirma "t1" false; AfterElapsed;
               Branco; Confirma "t2" false; AfterElapsed;
               Digit "1"; Digit "3"; Confirma "t3" false; AfterElapsed;
               Digit "9"; Digit "9"; Confirma "t4" true; AfterElapsed ]
             (new_controller provisioned_store))
  = fst (gravar_votos (example_calls "t1" "t2" "t3" "t4") provisioned_store).
Proof. reflexivity. Qed.

(** ** Votes on the store the program creates for itself *)

(** C5, on [votos.db] as two starts of the program leave it: candidate 13
    is registered and the session has typed 13, yet CONFIRMA raises out of
    [gravar_voto], no row is added, no reset is scheduled and the typed
    number stays.  The cause is the column [voto_tipo], named by the INSERT
    and missing from the table of [_ensure_db]. *)
Theorem valid_vote_lost_on_fresh_store :
  get_candidato 13 fresh_store = Some (13%Z, "Lula", Some "PT") /\
  Idle (new_controller fresh_store) /\
  Complete (run [Digit "1"; Digit "3"] (new_controller fresh_store)) /\
  result (on_confirma "t" false (run [Digit "1"; Digit "3"] (new_controller fresh_store)))
  = inl (OperationalError "table votos has no column named voto_tipo") /\
  ledger (run [Digit "1"; Digit "3"; Confirma "t" false] (new_controller fresh_store)) = [] /\
  after_pending (run [Digit "1"; Digit "3"; Confirma "t" false]
                     (new_controller fresh_store)) = 0 /\
  numero (run [Digit "1"; Digit "3"; Confirma "t" false; AfterElapsed]
              (new_controller fresh_store)) = "13".
Proof. repeat split. Qed.

(** C8, on the same store: BRANCO and then CONFIRMA raises out of
    [gravar_voto] and no row is added, for the same missing column. *)
Theorem blank_vote_lost_on_fresh_store :
  numero (run [Digit "1"; Branco] (new_controller fresh_store)) = "BRANCO" /\
  result (on_confirma "t" false (run [Digit "1"; Branco] (new_controller fresh_store)))
  = inl (OperationalError "table votos has no column named voto_tipo") /\
  ledger (run [Digit "1"; Branco; Confirma "t" false] (new_controller fresh_store)) = [].
Proof. repeat split. Qed.

(** ** The report *)

Lemma salvar_rows_length (votos_ : list (sqlval * nat))
    (cands : list (Z * (string * option string))) :
  List.length (salvar_rows votos_ cands) = S (List.length votos_).
Proof. unfold salvar_rows. simpl. rewrite List.length_map. reflexivity. Qed.

Lemma sqlval_eqb_refl (v : sqlval) : sqlval_eqb v v = true.
Proof.
  unfold sqlval_eqb. destruct v as [|z|t]; simpl.
  - reflexivity.
  - rewrite Z.compare_refl. reflexivity.
  - pose proof (String.compare_antisym t t) as Ha.
    destruct (String.compare t t); [reflexivity| |]; discriminate Ha.
Qed.

(** Whatever the tally and the candidates, a candidate number that is not a
    key of the tally heads no row of the CSV. *)
Lemma csv_no_row_without_votes (votos_ : list (sqlval * nat))
    (cands : list (Z * (string * option string))) (z : Z) (r : list cell) :
  in_votos (SqlInt z) votos_ = false ->
  In r (salvar_rows votos_ cands) ->
  hd SqlNull r <> SqlInt z.
Proof.
  intros Habs [Hr|Hr]; [subst r; discriminate|].
  apply in_map_iff in Hr. destruct Hr as [[k n] [Hr Hin]]. subst r.
  intros Hhd. unfold csv_row in Hhd. cbn [fst snd] in Hhd.
  destruct k as [|k|t].
  - discriminate Hhd.
  - destruct (nome_partido (SqlInt k) cands) as [nome partido]. cbn [hd] in Hhd.
    unfold in_votos in Habs.
    assert (Hex : existsb (fun kv => sqlval_eqb (fst kv) (SqlInt z)) votos_ = true).
    { apply existsb_exists. exists (SqlInt k, n). split; [exact Hin|].
      cbn [fst]. rewrite Hhd. apply sqlval_eqb_refl. }
    congruence.
  - destruct (nome_partido (SqlText t) cands) as [nome partido]. discriminate Hhd.
Qed.

(** C7, on the specification's own example (candidates 13 and 22, ballots
    for 13, blank, 13, null): the report window lists candidate 22 with no
    votes, and the CSV has the header, the BRANCO row and the row of 13, and
    no row for candidate 22. *)
Theorem csv_omits_candidates_without_votes :
  on_relatorio (fst (gravar_votos (example_calls "t1" "t2" "t3" "t4") provisioned_store))
  = inr {| rep_lines := [ LineBrancos 2;
                          LineCandidato (SqlInt 13) "A" (Some "P1") 2;
                          LineCandidato (SqlInt 22) "B" (Some "P2") 0;
                          LineTotal 4 ];
           rep_csv := [ [SqlText "candidato_id"; SqlText "nome"; SqlText "partido";
                         SqlText "votos"];
                        [SqlText "BRANCO"; SqlText "BRANCO"; SqlText ""; SqlInt 2];
                        [SqlInt 13; SqlText "A"; SqlText "P1"; SqlInt 2] ] |}.
Proof. reflexivity. Qed.

(** * Further properties of the vote store *)

(** ** The order on stored values *)

Lemma string_compare_OT (s t : string) :
  String.compare s t = String_as_OT.compare s t.
Proof.
  reflexivity.
Qed.

Lemma string_compare_lt_trans (s t u : string) :
  String.compare s t = Lt -> String.compare t u = Lt -> String.compare s u = Lt.
Proof.
  rewrite !string_compare_OT. intros H1 H2.
  destruct String_as_OT.lt_strorder as [_ Htrans]. exact (Htrans s t u H1 H2).
Qed.

Lemma sqlval_compare_eq (a b : sqlval) : sqlval_compare a b = Eq -> a = b.
Proof.
  destruct a as [|x|s], b as [|y|t]; simpl; intros H; try discriminate H.
  - reflexivity.
  - apply Z.compare_eq in H. congruence.
  - apply String.compare_eq_iff in H. congruence.
Qed.

Lemma sqlval_compare_antisym (a b : sqlval) :
  sqlval_compare b a = CompOpp (sqlval_compare a b).
Proof.
  destruct a as [|x|s], b as [|y|t]; simpl; try reflexivity.
  - apply Z.compare_antisym.
  - apply String.compare_antisym.
Qed.

Lemma sqlval_compare_lt_trans (a b c : sqlval) :
  sqlval_compare a b = Lt -> sqlval_compare b c = Lt -> sqlval_compare a c = Lt.
Proof.
  destruct a as [|x|s], b as [|y|t], c as [|z|u]; simpl; intros H1 H2;
    try discriminate; try reflexivity.
  - change (x < y)%Z in H1. change (y < z)%Z in H2. change (x < z)%Z. lia.
  - exact (string_compare_lt_trans _ _ _ H1 H2).
Qed.

Lemma sqlval_eqb_eq (a b : sqlval) : sqlval_eqb a b = true <-> a = b.
Proof.
  split.
  - unfold sqlval_eqb. destruct (sqlval_compare a b) eqn:E; try discriminate.
    intros _. exact (sqlval_compare_eq _ _ E).
  - intros ->. apply sqlval_eqb_refl.
Qed.

Lemma sqlval_eqb_lt (a b : sqlval) : sqlval_compare a b = Lt -> sqlval_eqb b a = false.
Proof.
  intros H. unfold sqlval_eqb. rewrite sqlval_compare_antisym, H. reflexivity.
Qed.

Lemma sqlval_eqb_gt (a b : sqlval) : sqlval_compare a b = Gt -> sqlval_eqb b a = false.
Proof.
  intros H. unfold sqlval_eqb. rewrite sqlval_compare_antisym, H. reflexivity.
Qed.

(** ** The tally, key by key *)

Lemma bump_keys (k : sqlval) (g : list (sqlval * nat)) (e : sqlval * nat) :
  In e (bump k g) -> fst e = k \/ In e g \/ exists n, In (fst e, n) g.
Proof.
  induction g as [|[k0 n] rest IH]; simpl.
  - intros [<-|[]]. left. reflexivity.
  - destruct (sqlval_compare k k0) eqn:E; simpl.
    + intros [<-|H]; [|auto]. right. right. exists n. left. reflexivity.
    + intros [<-|[<-|H]]; auto.
    + intros [<-|H]; [auto|]. destruct (IH H) as [H1|[H1|[n1 H1]]]; eauto.
Qed.

Lemma lookup_below_head (k : sqlval) (g : list (sqlval * nat)) :
  keys_ascending g ->
  Forall (fun e => sqlval_compare k (fst e) = Lt) g ->
  lookup k g = None.
Proof.
  intros _ H. unfold lookup. induction H as [|e g He Hg IH]; simpl; [reflexivity|].
  rewrite (sqlval_eqb_lt _ _ He). exact IH.
Qed.

Lemma bump_ascending (k : sqlval) (g : list (sqlval * nat)) :
  keys_ascending g -> keys_ascending (bump k g).
Proof.
  unfold keys_ascending. intros H. induction H as [|[k0 n] rest Hrest IH Hall]; simpl.
  - constructor; constructor.
  - destruct (sqlval_compare k k0) eqn:E.
    + constructor; [exact Hrest | exact Hall].
    + constructor; [constructor; assumption|].
      constructor; [exact E|].
      eapply Forall_impl; [|exact Hall]. simpl. intros e He.
      exact (sqlval_compare_lt_trans _ _ _ E He).
    + constructor; [exact IH|].
      apply Forall_forall. intros e He. simpl.
      assert (Hk : sqlval_compare k0 k = Lt).
      { rewrite sqlval_compare_antisym, E. reflexivity. }
      rewrite Forall_forall in Hall.
      destruct (bump_keys _ _ _ He) as [H1|[H1|[n1 H1]]].
      * rewrite H1. exact Hk.
      * exact (Hall _ H1).
      * exact (Hall _ H1).
Qed.

Lemma lookup_bump (k k' : sqlval) (g : list (sqlval * nat)) :
  keys_ascending g ->
  lookup k' (bump k g)
  = if sqlval_eqb k' k
    then Some (S (match lookup k g with Some n => n | None => 0 end))
    else lookup k' g.
Proof.
  unfold keys_ascending. intros H.
  induction H as [|[k0 n] rest Hrest IH Hall]; simpl.
  - unfold lookup. simpl. destruct (sqlval_eqb k' k) eqn:E.
    + apply sqlval_eqb_eq in E. subst k'. rewrite sqlval_eqb_refl. reflexivity.
    + destruct (sqlval_eqb k k') eqn:E'; [|reflexivity].
      apply sqlval_eqb_eq in E'. subst k'. rewrite sqlval_eqb_refl in E. discriminate E.
  - destruct (sqlval_compare k k0) eqn:E.
    + apply sqlval_compare_eq in E. subst k0. unfold lookup. simpl.
      rewrite sqlval_eqb_refl. simpl.
      destruct (sqlval_eqb k' k) eqn:E1.
      * apply sqlval_eqb_eq in E1. subst k'. rewrite sqlval_eqb_refl. reflexivity.
      * destruct (sqlval_eqb k k') eqn:E2; [|reflexivity].
        apply sqlval_eqb_eq in E2. subst k'. rewrite sqlval_eqb_refl in E1. discriminate E1.
    + assert (Hnone : lookup k ((k0, n) :: rest) = None).
      { apply lookup_below_head.
        - constructor; assumption.
        - constructor; [exact E|].
          eapply Forall_impl; [|exact Hall]. simpl. intros e He.
          exact (sqlval_compare_lt_trans _ _ _ E He). }
      rewrite Hnone. unfold lookup at 1. simpl.
      destruct (sqlval_eqb k' k) eqn:E1.
      * apply sqlval_eqb_eq in E1. subst k'. rewrite sqlval_eqb_refl. reflexivity.
      * destruct (sqlval_eqb k k') eqn:E2.
        { apply sqlval_eqb_eq in E2. subst k'. rewrite sqlval_eqb_refl in E1. discriminate E1. }
        reflexivity.
    + unfold lookup in *. simpl. rewrite (sqlval_eqb_gt _ _ E).
      destruct (sqlval_eqb k0 k') eqn:E0.
      * apply sqlval_eqb_eq in E0. subst k'.
        assert (E1 : sqlval_eqb k0 k = false).
        { unfold sqlval_eqb. rewrite sqlval_compare_antisym, E. reflexivity. }
        rewrite E1. reflexivity.
      * exact IH.
Qed.

Lemma fold_bump_ascending (keys : list sqlval) (g : list (sqlval * nat)) :
  keys_ascending g -> keys_ascending (fold_left (fun g k => bump k g) keys g).
Proof.
  revert g. induction keys as [|k keys IH]; intros g H; simpl; [exact H|].
  apply IH. apply bump_ascending. exact H.
Qed.

Lemma lookup_fold_bump (k' : sqlval) (keys : list sqlval) (g : list (sqlval * nat)) :
  keys_ascending g ->
  lookup k' (fold_left (fun g k => bump k g) keys g)
  = match List.length (filter (fun v => sqlval_eqb v k') keys) with
    | O => lookup k' g
    | S c => Some (S c + match lookup k' g with Some n => n | None => 0 end)
    end.
Proof.
  revert g. induction keys as [|k keys IH]; intros g H; simpl; [reflexivity|].
  rewrite (IH _ (bump_ascending k H)), (lookup_bump k k' H).
  destruct (sqlval_eqb k k') eqn:E.
  - apply sqlval_eqb_eq in E. subst k'. rewrite sqlval_eqb_refl. simpl.
    destruct (List.length (filter (fun v => sqlval_eqb v k) keys)); f_equal; lia.
  - assert (E' : sqlval_eqb k' k = false).
    { destruct (sqlval_eqb k' k) eqn:E'; [|reflexivity].
      apply sqlval_eqb_eq in E'. subst k'. rewrite sqlval_eqb_refl in E. discriminate E. }
    rewrite E'. reflexivity.
Qed.

(** X1. The dict returned by [contar_votos] has its keys in strictly
    ascending order ([None] first), hence pairwise distinct: the dict
    comprehension never merges two groups. *)
Theorem contar_votos_keys_ascending (m : Model) (tally : list (sqlval * nat)) :
  contar_votos m = inr tally ->
  keys_ascending tally /\ NoDup (map fst tally).
Proof.
  unfold contar_votos. destruct (has_column "candidato_id" (votos m)); [|discriminate].
  intros H. injection H as <-.
  assert (Ha : keys_ascending
                 (group_count (map (valor "candidato_id") (vt_rows (votos m))))).
  { apply fold_bump_ascending. constructor. }
  split; [exact Ha|].
  induction Ha as [|e g Hg IH Hall]; simpl; constructor; [|exact IH].
  intros Hin. apply in_map_iff in Hin. destruct Hin as [e' [Heq Hin]].
  rewrite Forall_forall in Hall. specialize (Hall _ Hin). simpl in Hall.
  rewrite Heq in Hall.
  pose proof (sqlval_eqb_refl (fst e)) as Hr. unfold sqlval_eqb in Hr.
  rewrite Hall in Hr. discriminate Hr.
Qed.

Lemma contar_votos_keys_ascending_witness :
  keys_ascending [(SqlNull, 2); (SqlInt 13, 2)] /\
  NoDup (map fst [(SqlNull, 2); (SqlInt 13, 2)]).
Proof.
  apply (@contar_votos_keys_ascending
           (fst (gravar_votos (example_calls "t1" "t2" "t3" "t4") provisioned_store))).
  reflexivity.
Defined.

Lemma lookup_contar_votos (m : Model) (tally : list (sqlval * nat)) (k : sqlval) :
  contar_votos m = inr tally ->
  lookup k tally = match count_rows k m with O => None | S c => Some (S c) end.
Proof.
  unfold contar_votos. destruct (has_column "candidato_id" (votos m)); [|discriminate].
  intros H. injection H as <-. unfold group_count, count_rows.
  rewrite lookup_fold_bump by constructor.
  destruct (List.length _); [reflexivity|]. simpl. f_equal. lia.
Qed.

(** X2. In the dict returned by [contar_votos], a key is mapped to the
    number of rows of [votos] that hold it in [candidato_id], and a value
    held by no row is not a key. *)
Theorem contar_votos_counts_rows (m : Model) (tally : list (sqlval * nat)) (k : sqlval) :
  contar_votos m = inr tally ->
  lookup k tally = match count_rows k m with O => None | S c => Some (S c) end.
Proof. intros; eapply lookup_contar_votos; eauto. Qed.

Lemma contar_votos_counts_rows_witness :
  lookup (SqlInt 13) [(SqlNull, 2); (SqlInt 13, 2)] = Some 2.
Proof.
  apply (@contar_votos_counts_rows
           (fst (gravar_votos (example_calls "t1" "t2" "t3" "t4") provisioned_store))
           [(SqlNull, 2); (SqlInt 13, 2)] (SqlInt 13)).
  reflexivity.
Defined.

(** ** The registry *)

Lemma insert_by_id_perm (c : candidato) (l : list candidato) :
  Permutation (c :: l) (insert_by_id c l).
Proof.
  induction l as [|d l IH]; simpl; [reflexivity|].
  destruct (cand_id c <=? cand_id d)%Z; [reflexivity|].
  rewrite perm_swap. constructor. exact IH.
Qed.

Lemma insert_by_id_sorted (c : candidato) (l : list candidato) :
  by_id_ascending l -> by_id_ascending (insert_by_id c l).
Proof.
  unfold by_id_ascending. intros H. induction H as [|d l Hl IH Hall]; simpl.
  - constructor; constructor.
  - destruct (cand_id c <=? cand_id d)%Z eqn:E.
    + apply Z.leb_le in E. constructor; [constructor; assumption|].
      constructor; [exact E|].
      eapply Forall_impl; [|exact Hall]. simpl. intros e He. lia.
    + apply Z.leb_gt in E. constructor; [exact IH|].
      rewrite <- (insert_by_id_perm c l). constructor; [lia | exact Hall].
Qed.

Lemma listar_candidatos_perm_sorted (m : Model) :
  Permutation (candidatos m) (listar_candidatos m) /\
  by_id_ascending (listar_candidatos m).
Proof.
  unfold listar_candidatos. induction (candidatos m) as [|c l [IHp IHs]]; simpl.
  - split; constructor.
  - split.
    + rewrite <- insert_by_id_perm. constructor. exact IHp.
    + apply insert_by_id_sorted. exact IHs.
Qed.

(** X4. [listar_candidatos] returns every row of [candidatos], each as many
    times as the table holds it, in ascending order of id. *)
Theorem listar_candidatos_sorted_permutation (m : Model) :
  Permutation (candidatos m) (listar_candidatos m) /\
  by_id_ascending (listar_candidatos m).
Proof. intros; eapply listar_candidatos_perm_sorted; eauto. Qed.

Lemma find_insert_by_id_other (p : candidato -> bool) (c : candidato) (l : list candidato) :
  p c = false -> find p (insert_by_id c l) = find p l.
Proof.
  intros Hc. induction l as [|d l IH]; simpl; [rewrite Hc; reflexivity|].
  destruct (cand_id c <=? cand_id d)%Z; simpl.
  - rewrite Hc. reflexivity.
  - rewrite IH. reflexivity.
Qed.

Lemma find_insert_by_id_new (n : Z) (c : candidato) (l : list candidato) :
  cand_id c = n ->
  existsb (fun d => Z.eqb (cand_id d) n) l = false ->
  find (fun d => Z.eqb (cand_id d) n) (insert_by_id c l) = Some c.
Proof.
  intros Hc Hl. induction l as [|d l IH]; simpl.
  - rewrite Hc, Z.eqb_refl. reflexivity.
  - simpl in Hl. apply orb_false_iff in Hl. destruct Hl as [Hd Hl].
    destruct (cand_id c <=? cand_id d)%Z; simpl.
    + rewrite Hc, Z.eqb_refl. reflexivity.
    + rewrite Hd. exact (IH Hl).
Qed.

Lemma existsb_find_id (n : Z) (l : list candidato) :
  existsb (fun d => Z.eqb (cand_id d) n) l = true ->
  exists c, find (fun d => Z.eqb (cand_id d) n) l = Some c.
Proof.
  induction l as [|d l IH]; simpl; [discriminate|].
  destruct (Z.eqb (cand_id d) n); simpl; eauto.
Qed.

(** What one seeding INSERT does to a lookup: a candidate already there is
    kept, the seeded one is found when its id was free. *)
Lemma seed_one_lookup (cs : list candidato) (fv : option votos_table)
    (c : candidato) (n : Z) :
  let f' := seed_one {| file_candidatos := Some cs; file_votos := fv |} c in
  exists cs',
    f' = {| file_candidatos := Some cs'; file_votos := fv |} /\
    find (fun d => Z.eqb (cand_id d) n) cs'
    = match find (fun d => Z.eqb (cand_id d) n) cs with
      | Some d => Some d
      | None => if Z.eqb (cand_id c) n then Some c else None
      end.
Proof.
  unfold seed_one. simpl.
  destruct (existsb (fun d => Z.eqb (cand_id d) (cand_id c)) cs) eqn:E.
  - exists cs. split; [reflexivity|].
    destruct (find (fun d => Z.eqb (cand_id d) n) cs) eqn:F; [reflexivity|].
    destruct (Z.eqb (cand_id c) n) eqn:En; [|reflexivity].
    apply Z.eqb_eq in En. subst n.
    destruct (existsb_find_id _ _ E) as [d Hd]. congruence.
  - exists (insert_by_id c cs). split; [reflexivity|].
    destruct (Z.eqb (cand_id c) n) eqn:En.
    + apply Z.eqb_eq in En. subst n.
      rewrite (find_insert_by_id_new c cs eq_refl E).
      destruct (find (fun d => Z.eqb (cand_id d) (cand_id c)) cs) eqn:F; [|reflexivity].
      apply find_some in F. destruct F as [Hin Heq].
      assert (Hex : existsb (fun d => Z.eqb (cand_id d) (cand_id c)) cs = true).
      { apply existsb_exists. eauto. }
      congruence.
    + rewrite find_insert_by_id_other by exact En.
      destruct (find (fun d => Z.eqb (cand_id d) n) cs); reflexivity.
Qed.

Lemma startup_lookup (m : Model) (n : Z) :
  votos (startup (file_of m)) = votos m /\
  get_candidato n (startup (file_of m))
  = match get_candidato n m with
    | Some cand => Some cand
    | None =>
        if Z.eqb n 13 then Some (13%Z, "Lula", Some "PT")
        else if Z.eqb n 22 then Some (22%Z, "Bolsonaro", Some "PL")
        else None
    end.
Proof.
  unfold startup, seed, file_of, get_candidato. simpl fold_left.
  destruct (seed_one_lookup (candidatos m) (Some (votos m))
              (13%Z, "Lula", Some "PT") n) as [cs1 [E1 F1]].
  simpl in E1. rewrite E1.
  destruct (seed_one_lookup cs1 (Some (votos m))
              (22%Z, "Bolsonaro", Some "PL") n) as [cs2 [E2 F2]].
  simpl in E2. rewrite E2. simpl. split; [reflexivity|].
  rewrite F2, F1.
  change (cand_id (13%Z, "Lula", Some "PT")) with 13%Z.
  change (cand_id (22%Z, "Bolsonaro", Some "PL")) with 22%Z.
  destruct (find (fun c => Z.eqb (cand_id c) n) (candidatos m)); [reflexivity|].
  rewrite (Z.eqb_sym 13 n), (Z.eqb_sym 22 n).
  destruct (Z.eqb n 13); reflexivity.
Qed.

(** X5. Starting the program on a file that has its tables keeps the
    [votos] table as it is and keeps every registered candidate: the seeding
    INSERTs never replace a row of [candidatos], they only add 13 (Lula) and
    22 (Bolsonaro) where the id is free. *)
Theorem startup_keeps_votes_and_candidates (m : Model) (n : Z) :
  votos (startup (file_of m)) = votos m /\
  get_candidato n (startup (file_of m))
  = match get_candidato n m with
    | Some cand => Some cand
    | None =>
        if Z.eqb n 13 then Some (13%Z, "Lula", Some "PT")
        else if Z.eqb n 22 then Some (22%Z, "Bolsonaro", Some "PL")
        else None
    end.
Proof. intros; eapply startup_lookup; eauto. Qed.



Lemma startup_fixed (x : Model) :
  existsb (fun d => Z.eqb (cand_id d) 13) (candidatos x) = true ->
  existsb (fun d => Z.eqb (cand_id d) 22) (candidatos x) = true ->
  startup (file_of x) = x.
Proof.
  intros H13 H22. destruct x as [cs vt]. simpl in H13, H22.
  unfold startup, seed, file_of. simpl fold_left.
  unfold seed_one at 2. cbn [file_candidatos candidatos].
  change (cand_id (13%Z, "Lula", Some "PT")) with 13%Z. rewrite H13.
  unfold seed_one. cbn [file_candidatos candidatos].
  change (cand_id (22%Z, "Bolsonaro", Some "PL")) with 22%Z. rewrite H22.
  reflexivity.
Qed.

Lemma startup_registers_seeds (m : Model) (n : Z) :
  n = 13%Z \/ n = 22%Z ->
  existsb (fun d => Z.eqb (cand_id d) n) (candidatos (startup (file_of m))) = true.
Proof.
  intros Hn. destruct (startup_lookup m n) as [_ H].
  unfold get_candidato in H.
  destruct (find _ (candidatos (startup (file_of m)))) as [c|] eqn:F.
  - apply find_some in F. apply existsb_exists. exists c. exact F.
  - destruct (find _ (candidatos m)); [discriminate H|].
    destruct Hn as [-> | ->]; discriminate H.
Qed.

(** X7. The program settles on its second start.  On a file that holds
    both tables, one more start brings it to a state that further starts
    leave as it is; so for every file the third start changes nothing.  The
    second start can still change the file: after a first start on a file
    without a [candidatos] table the registry is empty, and it is the second
    start that seeds it. *)
Theorem startup_settles_on_second_start :
  (forall m : Model,
     startup (file_of (startup (file_of m))) = startup (file_of m)) /\
  (forall f : db_file,
     startup (file_of (startup (file_of (startup f))))
     = startup (file_of (startup f))) /\
  (forall f : db_file,
     file_candidatos f = None ->
     startup (file_of (startup f)) <> startup f).
Proof.
  assert (H : forall m : Model,
             startup (file_of (startup (file_of m))) = startup (file_of m)).
  { intros m. apply startup_fixed; apply startup_registers_seeds; auto. }
  split; [exact H|]. split; [intros f; apply H|].
  intros f Hf Heq.
  assert (Hseed : seed f = f).
  { unfold seed. simpl fold_left. unfold seed_one. rewrite Hf. rewrite Hf. reflexivity. }
  assert (Hempty : candidatos (startup f) = []).
  { unfold startup, _ensure_db. rewrite Hseed, Hf. reflexivity. }
  pose proof (startup_registers_seeds (startup f) (or_introl eq_refl)) as H13.
  rewrite Heq, Hempty in H13. discriminate H13.
Qed.

(** * Further properties of the session *)

(** ** Typing digits *)

Lemma on_digit_full (d : string) (c : Controller) :
  MAX_DIGITS <= String.length (numero c) ->
  on_digit d c = {| final := c; trace := []; result := inr tt |}.
Proof.
  intros H. unfold on_digit, bind, get_numero. cbn [result final trace].
  destruct (Nat.leb MAX_DIGITS (String.length (numero c))) eqn:E; [reflexivity|].
  apply Nat.leb_gt in E. lia.
Qed.

(** X8. Once [numero] holds [MAX_DIGITS] characters or more, as it does
    after BRANCO, [on_digit] ignores the key: the controller is unchanged
    and the view is not called. *)
Theorem on_digit_ignored_when_full (d : string) (c : Controller) :
  MAX_DIGITS <= String.length (numero c) ->
  on_digit d c = {| final := c; trace := []; result := inr tt |}.
Proof. intros; eapply on_digit_full; eauto. Qed.

Lemma on_digit_ignored_when_full_witness :
  on_digit "7" (run [Branco] (new_controller provisioned_store))
  = {| final := run [Branco] (new_controller provisioned_store);
       trace := []; result := inr tt |}.
Proof.
  apply (@on_digit_ignored_when_full "7" (run [Branco] (new_controller provisioned_store))).
  simpl. unfold MAX_DIGITS. lia.
Defined.

Lemma on_digit_frame (d : string) (c : Controller) :
  result (on_digit d c) = inr tt /\
  model (final (on_digit d c)) = model c /\
  after_pending (final (on_digit d c)) = after_pending c /\
  (numero (final (on_digit d c)) = numero c \/
   numero (final (on_digit d c)) = (numero c ++ d)%string).
Proof.
  unfold on_digit, bind, get_numero. cbn [result final trace].
  destruct (Nat.leb MAX_DIGITS (String.length (numero c))); [simpl; auto|].
  unfold try_except, int, bind.
  destruct (Nat.eqb (String.length (numero c ++ d)) MAX_DIGITS); [|simpl; auto].
  destruct (isdigit (numero c ++ d)); [|simpl; auto].
  cbn [result final trace ret set_numero emit model_get_candidato model].
  destruct (get_candidato (int_acc 0 (numero c ++ d)) (model c)); simpl; auto.
Qed.

(** X9. [on_digit] never raises, whatever string it is given: a failure of
    [int] is caught and printed.  It never touches the model or the pending
    callbacks, and [numero] is either left alone or extended by the key. *)
Theorem on_digit_never_raises (d : string) (c : Controller) :
  result (on_digit d c) = inr tt /\
  model (final (on_digit d c)) = model c /\
  after_pending (final (on_digit d c)) = after_pending c /\
  (numero (final (on_digit d c)) = numero c \/
   numero (final (on_digit d c)) = (numero c ++ d)%string).
Proof. intros; eapply on_digit_frame; eauto. Qed.

Lemma all_digits_app (s t : string) :
  all_digits s = true -> all_digits t = true -> all_digits (s ++ t) = true.
Proof.
  intros Hs Ht. induction s as [|a s IH]; simpl in *; [exact Ht|].
  apply andb_true_iff in Hs. destruct Hs as [Ha Hs]. rewrite Ha. simpl. auto.
Qed.

Lemma length_app_string (s t : string) :
  String.length (s ++ t) = String.length s + String.length t.
Proof. induction s as [|a s IH]; simpl; [reflexivity | rewrite IH; reflexivity]. Qed.

Lemma numero_ok_cases (s : string) :
  numero_ok s -> s = "" \/ s = "BRANCO" \/ isdigit s = true.
Proof.
  intros [H|[H _]]; [auto|]. destruct s as [|a s]; [auto|]. right. right. exact H.
Qed.

Lemma on_confirma_numero (agora : string) (resp : bool) (c : Controller) :
  numero (final (on_confirma agora resp c)) = numero c.
Proof. exact (proj1 (on_confirma_frame agora resp c)). Qed.

Lemma handle_numero_ok (ev : event) (c : Controller) :
  keypad_event ev -> numero_ok (numero c) -> numero_ok (numero (final (handle ev c))).
Proof.
  intros Hev Hok. destruct ev as [d| | |agora resp|]; cbn [handle].
  - destruct Hev as [a [-> Ha]].
    destruct (Nat.leb MAX_DIGITS (String.length (numero c))) eqn:E.
    + apply Nat.leb_le in E. rewrite (on_digit_full _ c E). exact Hok.
    + apply Nat.leb_gt in E. rewrite (on_digit_types _ c E). cbn [numero].
      destruct Hok as [Hb|[Hd Hl]].
      * rewrite Hb in E. simpl in E. unfold MAX_DIGITS in E. lia.
      * right. split.
        -- apply all_digits_app; [exact Hd|]. simpl. rewrite Ha. reflexivity.
        -- rewrite length_app_string. simpl. unfold MAX_DIGITS in *. lia.
  - right. split; [reflexivity | simpl; lia].
  - left. reflexivity.
  - rewrite on_confirma_numero. exact Hok.
  - unfold after_callback. destruct (after_pending c); [exact Hok|].
    right. split; [reflexivity | simpl; lia].
Qed.

(** X10. In a session driven from the keypad (digit keys carry one
    character 0 to 9), [numero] is always the word BRANCO or at most
    [MAX_DIGITS] decimal digits, whatever the sequence of keys, confirmations
    and callbacks. *)
Theorem keypad_run_keeps_numero_ok (evs : list event) (c : Controller) :
  Forall keypad_event evs ->
  numero_ok (numero c) ->
  numero_ok (numero (run evs c)).
Proof.
  intros Hevs. revert c. induction Hevs as [|ev evs Hev Hevs IH]; intros c Hok.
  - exact Hok.
  - rewrite run_cons. apply IH. apply handle_numero_ok; assumption.
Qed.

Lemma keypad_run_keeps_numero_ok_witness :
  numero_ok (numero (run [Digit "1"; Digit "3"; Digit "5"; Confirma "t" false]
                         (new_controller provisioned_store))).
Proof.
  apply (@keypad_run_keeps_numero_ok
           [Digit "1"; Digit "3"; Digit "5"; Confirma "t" false]
           (new_controller provisioned_store)).
  - repeat constructor; eexists; split; reflexivity.
  - right. split; [reflexivity | simpl; lia].
Defined.

(** X11. As long as [numero] is the word BRANCO or at most [MAX_DIGITS]
    digits, no keypad event reaches the error paths: [on_confirma] never
    shows the box "Número inválido." and [on_digit] never prints a failed
    candidate lookup. *)
Theorem keypad_never_reaches_error_paths (ev : event) (c : Controller) :
  keypad_event ev ->
  numero_ok (numero c) ->
  Forall (fun e => match e with
                   | showerror _ _ => False
                   | print _ _ => False
                   | _ => True
                   end)
         (trace (handle ev c)).
Proof.
  intros Hev Hok. apply Forall_forall. intros e.
  destruct ev as [d| | |agora resp|]; cbn [handle].
  - destruct Hev as [a [-> Ha]].
    destruct (Nat.leb MAX_DIGITS (String.length (numero c))) eqn:E.
    + apply Nat.leb_le in E. rewrite (on_digit_full _ c E). intros [].
    + assert (Hd : all_digits (numero c) = true).
      { destruct Hok as [Hb|[Hd _]]; [|exact Hd].
        apply Nat.leb_gt in E. rewrite Hb in E. simpl in E. unfold MAX_DIGITS in E. lia. }
      assert (Hi : isdigit (numero c ++ String a "") = true).
      { pose proof (all_digits_app (numero c) (String a "") Hd) as H.
        simpl in H. rewrite Ha in H. specialize (H eq_refl).
        destruct (numero c); exact H. }
      unfold on_digit, bind, get_numero. cbn [result final trace]. rewrite E.
      unfold try_except, int, bind. rewrite Hi.
      destruct (Nat.eqb (String.length (numero c ++ String a "")) MAX_DIGITS).
      * cbn [result final trace ret set_numero emit model_get_candidato model].
        destruct (get_candidato _ (model c)); simpl;
          intros [<-|[<-|[]]]; exact I.
      * simpl. intros [<-|[]]. exact I.
  - simpl. intros [<-|[<-|[]]]; exact I.
  - simpl. intros [<-|[<-|[]]]; exact I.
  - unfold on_confirma. run_monad.
    destruct (numero_ok_cases Hok) as [H|[H|H]].
    + rewrite H. simpl. intros [<-|[]]. exact I.
    + rewrite H. simpl.
      destruct (gravar_voto agora None (model c)); simpl.
      * intros [<-|[]]. exact I.
      * intros [<-|[<-|[<-|[]]]]; exact I.
    + rewrite (isdigit_not_empty _ H), (isdigit_not_branco _ H), H. simpl.
      destruct (get_candidato (int_acc 0 (numero c)) (model c)); simpl.
      * destruct (gravar_voto agora (Some (int_acc 0 (numero c))) (model c)); simpl.
        -- intros [<-|[]]. exact I.
        -- intros [<-|[<-|[<-|[]]]]; exact I.
      * destruct resp; simpl.
        -- destruct (gravar_voto agora None (model c)); simpl.
           ++ intros [<-|[<-|[]]]; exact I.
           ++ intros [<-|[<-|[<-|[<-|[]]]]]; exact I.
        -- intros [<-|[<-|[]]]; exact I.
  - unfold after_callback. destruct (after_pending c); simpl.
    + intros [].
    + intros [<-|[<-|[]]]; exact I.
Qed.

Lemma keypad_never_reaches_error_paths_witness :
  Forall (fun e => match e with
                   | showerror _ _ => False
                   | print _ _ => False
                   | _ => True
                   end)
         (trace (handle (Confirma "t" true)
                        (run [Digit "9"; Digit "9"] (new_controller provisioned_store)))).
Proof.
  apply (@keypad_never_reaches_error_paths (Confirma "t" true)
           (run [Digit "9"; Digit "9"] (new_controller provisioned_store))).
  - exact I.
  - right. split; [reflexivity | simpl; unfold MAX_DIGITS; lia].
Defined.

(** ** Writing votes *)

(** What one CONFIRMA does to the store: nothing, or one [gravar_voto]
    that completed, for no candidate or for a registered one. *)
Lemma on_confirma_writes (agora : string) (resp : bool) (c : Controller) :
  (model (final (on_confirma agora resp c)) = model c /\
   after_pending (final (on_confirma agora resp c)) = after_pending c /\
   ~ In animacao_fim (trace (on_confirma agora resp c))) \/
  (exists cid,
     model (final (on_confirma agora resp c)) = with_vote agora cid (model c) /\
     accepts_votes (model c) /\
     after_pending (final (on_confirma agora resp c)) = S (after_pending c) /\
     result (on_confirma agora resp c) = inr tt /\
     In animacao_fim (trace (on_confirma agora resp c)) /\
     match cid with
     | None => True
     | Some n => exists cand, get_candidato n (model c) = Some cand
     end).
Proof.
  unfold on_confirma. run_monad.
  destruct (String.eqb (numero c) ""); simpl.
  { left. repeat split. intros [H|[]]. discriminate H. }
  destruct (String.eqb (numero c) "BRANCO"); simpl.
  { destruct (gravar_voto agora None (model c)) as [e|m'] eqn:E; simpl.
    - left. repeat split. intros [H|[]]. discriminate H.
    - right. exists None. apply gravar_voto_inr in E. destruct E as [Ha ->].
      repeat split; simpl; auto 8; try apply Ha. }
  destruct (isdigit (numero c)); simpl.
  2:{ left. repeat split. intros [H|[H|[]]]; discriminate H. }
  destruct (get_candidato (int_acc 0 (numero c)) (model c)) as [cand|] eqn:G; simpl.
  - destruct (gravar_voto agora (Some (int_acc 0 (numero c))) (model c))
      as [e|m'] eqn:E; simpl.
    + left. repeat split. intros [H|[]]. discriminate H.
    + right. exists (Some (int_acc 0 (numero c))).
      apply gravar_voto_inr in E. destruct E as [Ha ->].
      repeat split; simpl; auto 8; try apply Ha. exists cand. exact G.
  - destruct resp; simpl.
    + destruct (gravar_voto agora None (model c)) as [e|m'] eqn:E; simpl.
      * left. repeat split. intros [H|[H|[]]]; discriminate H.
      * right. exists None. apply gravar_voto_inr in E. destruct E as [Ha ->].
        repeat split; simpl; auto 8; try apply Ha.
    + left. repeat split. intros [H|[H|[]]]; discriminate H.
Qed.

Lemma voto_row_legitimate (agora : string) (cid : option Z) (m : Model) :
  accepts_votes m ->
  match cid with
  | None => True
  | Some n => exists cand, get_candidato n m = Some cand
  end ->
  legitimate_record m (voto_row agora cid (votos m)).
Proof.
  intros [Hc Ht] Hcid. destruct cid as [n|].
  - right. destruct Hcid as [cand Hcand]. exists n, cand. split; [|exact Hcand]. split.
    + exact (valor_voto_row_candidato agora (Some n) _ Hc).
    + exact (valor_voto_row_tipo agora (Some n) _ Ht).
  - left. split.
    + exact (valor_voto_row_candidato agora None _ Hc).
    + exact (valor_voto_row_tipo agora None _ Ht).
Qed.

(** One event: the rows it adds (none or one), with registry and columns
    untouched. *)
Lemma handle_appends (ev : event) (c : Controller) :
  exists new,
    ledger (final (handle ev c)) = ledger c ++ new /\
    candidatos (model (final (handle ev c))) = candidatos (model c) /\
    vt_columns (votos (model (final (handle ev c)))) = vt_columns (votos (model c)) /\
    Forall (legitimate_record (model c)) new /\
    (is_confirma ev = false -> new = []).
Proof.
  assert (Hsame : model (final (handle ev c)) = model c ->
                  exists new,
                    ledger (final (handle ev c)) = ledger c ++ new /\
                    candidatos (model (final (handle ev c))) = candidatos (model c) /\
                    vt_columns (votos (model (final (handle ev c))))
                    = vt_columns (votos (model c)) /\
                    Forall (legitimate_record (model c)) new /\
                    (is_confirma ev = false -> new = [])).
  { intros H. exists []. unfold ledger. rewrite H, app_nil_r. repeat split; auto. }
  destruct ev as [d| | |agora resp|]; cbn [handle] in *.
  - apply Hsame. exact (proj1 (proj2 (on_digit_frame d c))).
  - apply Hsame. reflexivity.
  - apply Hsame. reflexivity.
  - destruct (on_confirma_writes agora resp c)
      as [[Hm _]|[cid (Hm & Ha & _ & _ & _ & Hcid)]]; [exact (Hsame Hm)|].
    exists [voto_row agora cid (votos (model c))]. unfold ledger. rewrite Hm.
    repeat split.
    + constructor; [|constructor]. exact (voto_row_legitimate agora cid Ha Hcid).
    + discriminate.
  - apply Hsame. unfold after_callback. destruct (after_pending c); reflexivity.
Qed.

Lemma legitimate_record_same_registry (m m' : Model) (r : row) :
  candidatos m' = candidatos m -> legitimate_record m' r -> legitimate_record m r.
Proof.
  intros H [Hb|[n [cand [Hv Hg]]]]; [left; exact Hb|].
  right. exists n, cand. split; [exact Hv|].
  unfold get_candidato in *. rewrite <- H. exact Hg.
Qed.

Lemma run_appends (evs : list event) (c : Controller) :
  exists new,
    ledger (run evs c) = ledger c ++ new /\
    candidatos (model (run evs c)) = candidatos (model c) /\
    vt_columns (votos (model (run evs c))) = vt_columns (votos (model c)) /\
    Forall (legitimate_record (model c)) new /\
    (forallb (fun ev => negb (is_confirma ev)) evs = true -> new = []).
Proof.
  revert c. induction evs as [|ev evs IH]; intros c.
  - exists []. simpl. rewrite app_nil_r. repeat split; auto.
  - rewrite run_cons.
    destruct (handle_appends ev c) as [new1 (H1 & Hc1 & Hk1 & Hl1 & Hn1)].
    destruct (IH (final (handle ev c))) as [new2 (H2 & Hc2 & Hk2 & Hl2 & Hn2)].
    exists (new1 ++ new2). rewrite H2, H1, app_assoc, Hc2, Hc1, Hk2, Hk1.
    repeat split.
    + apply Forall_app. split; [exact Hl1|].
      eapply Forall_impl; [|exact Hl2].
      intros r. apply legitimate_record_same_registry. exact Hc1.
    + simpl. intros H. apply andb_true_iff in H. destruct H as [Ha Hb].
      rewrite Hn1, Hn2; [reflexivity | exact Hb |].
      destruct (is_confirma ev); [discriminate Ha | reflexivity].
Qed.

(** X12. The ledger is append-only under the session: whatever the events,
    the rows that were there stay, in place and unchanged, and neither the
    registry nor the columns of [votos] are touched. *)
Theorem session_only_appends (evs : list event) (c : Controller) :
  (exists new, ledger (run evs c) = ledger c ++ new) /\
  candidatos (model (run evs c)) = candidatos (model c) /\
  vt_columns (votos (model (run evs c))) = vt_columns (votos (model c)).
Proof.
  destruct (run_appends evs c) as [new (H & Hc & Hk & _)]. eauto.
Qed.

(** X13. Every row a session adds is a blank record or a valid record for
    a candidate that is in the registry: the session never records a valid
    vote for a number [get_candidato] does not find. *)
Theorem session_writes_legitimate_records (evs : list event) (c : Controller) :
  exists new,
    ledger (run evs c) = ledger c ++ new /\
    Forall (legitimate_record (model c)) new.
Proof.
  destruct (run_appends evs c) as [new (H & _ & _ & Hl & _)]. eauto.
Qed.

(** X14. Only CONFIRMA writes: a sequence of digit keys, BRANCO, CORRIGE
    and elapsed callbacks leaves the model as it was. *)
Theorem only_confirma_writes (evs : list event) (c : Controller) :
  forallb (fun ev => negb (is_confirma ev)) evs = true ->
  model (run evs c) = model c.
Proof.
  revert c. induction evs as [|ev evs IH]; intros c H; [reflexivity|].
  simpl in H. apply andb_true_iff in H. destruct H as [Ha Hb].
  rewrite run_cons, (IH _ Hb).
  destruct ev as [d| | |agora resp|]; cbn [handle]; try reflexivity.
  - exact (proj1 (proj2 (on_digit_frame d c))).
  - discriminate Ha.
  - unfold after_callback. destruct (after_pending c); reflexivity.
Qed.

Lemma only_confirma_writes_witness :
  model (run [Digit "1"; Branco; Corrige; Digit "2"; AfterElapsed]
             (new_controller provisioned_store))
  = model (new_controller provisioned_store).
Proof.
  apply (@only_confirma_writes [Digit "1"; Branco; Corrige; Digit "2"; AfterElapsed]
           (new_controller provisioned_store)).
  reflexivity.
Defined.

(** X15. A CONFIRMA either writes nothing, starts no animation and leaves
    no callback, or writes exactly one row, returns normally, starts the
    animation and leaves one callback; in the second case the callback,
    when it runs, empties [numero]. *)
Theorem confirma_writes_iff_reset_scheduled (agora : string) (resp : bool) (c : Controller) :
  (ledger (final (on_confirma agora resp c)) = ledger c /\
   after_pending (final (on_confirma agora resp c)) = after_pending c /\
   ~ In animacao_fim (trace (on_confirma agora resp c))) \/
  (exists r,
     ledger (final (on_confirma agora resp c)) = ledger c ++ [r] /\
     after_pending (final (on_confirma agora resp c)) = S (after_pending c) /\
     result (on_confirma agora resp c) = inr tt /\
     In animacao_fim (trace (on_confirma agora resp c)) /\
     Idle (final (after_callback (final (on_confirma agora resp c))))).
Proof.
  destruct (on_confirma_writes agora resp c)
    as [(Hm & Hp & Ht)|[cid (Hm & _ & Hp & Hr & Ht & _)]].
  - left. unfold ledger. rewrite Hm. auto.
  - right. exists (voto_row agora cid (votos (model c))).
    unfold ledger. rewrite Hm. repeat split; auto.
    unfold after_callback. rewrite Hp. reflexivity.
Qed.

(** X16. With a typed number that matches no candidate, CONFIRMA answered
    yes records the null vote as a blank record, the very row BRANCO would
    give, and plays the sound twice. *)
Theorem confirmed_null_vote_is_stored_as_blank (agora : string) (c : Controller) :
  Complete c ->
  get_candidato (int_acc 0 (numero c)) (model c) = None ->
  accepts_votes (model c) ->
  model (final (on_confirma agora true c)) = with_vote agora None (model c) /\
  (exists r, ledger (final (on_confirma agora true c)) = ledger c ++ [r] /\
             blank_record r) /\
  trace (on_confirma agora true c)
  = [play_puc;
     askyesno "Confirmar" "Candidato não encontrado. Confirma voto NULO?";
     play_puc; animacao_fim].
Proof.
  intros [Hd _] Hc Hacc. unfold on_confirma. run_monad.
  rewrite (isdigit_not_empty _ Hd), (isdigit_not_branco _ Hd), Hd. simpl.
  rewrite Hc. simpl. rewrite (gravar_voto_accepted agora None Hacc). simpl.
  split; [reflexivity|]. split; [|reflexivity].
  eexists. split; [reflexivity|]. destruct Hacc as [Ha Ht]. split.
  - exact (valor_voto_row_candidato agora None _ Ha).
  - exact (valor_voto_row_tipo agora None _ Ht).
Qed.

Lemma confirmed_null_vote_is_stored_as_blank_witness :
  let c := run [Digit "9"; Digit "9"] (new_controller provisioned_store) in
  model (final (on_confirma "t" true c)) = with_vote "t" None (model c) /\
  (exists r, ledger (final (on_confirma "t" true c)) = ledger c ++ [r] /\
             blank_record r) /\
  trace (on_confirma "t" true c)
  = [play_puc;
     askyesno "Confirmar" "Candidato não encontrado. Confirma voto NULO?";
     play_puc; animacao_fim].
Proof.
  apply (@confirmed_null_vote_is_stored_as_blank "t"
           (run [Digit "9"; Digit "9"] (new_controller provisioned_store))).
  - split; reflexivity.
  - reflexivity.
  - split; reflexivity.
Defined.

(** X17. Whenever something is typed, [on_confirma] plays the confirmation
    sound first, before any write: also when the vote is then refused by
    the store or declined by the voter. *)
Theorem confirma_plays_sound_first (agora : string) (resp : bool) (c : Controller) :
  numero c <> "" ->
  exists rest, trace (on_confirma agora resp c) = play_puc :: rest.
Proof.
  intros H. apply String.eqb_neq in H. unfold on_confirma. run_monad. rewrite H. simpl.
  destruct (String.eqb (numero c) "BRANCO"); simpl.
  { destruct (gravar_voto agora None (model c)); simpl; eauto. }
  destruct (isdigit (numero c)); simpl; [|eauto].
  destruct (get_candidato (int_acc 0 (numero c)) (model c)); simpl.
  - destruct (gravar_voto agora (Some (int_acc 0 (numero c))) (model c)); simpl; eauto.
  - destruct resp; simpl; [|eauto].
    destruct (gravar_voto agora None (model c)); simpl; eauto.
Qed.

Lemma confirma_plays_sound_first_witness :
  exists rest,
    trace (on_confirma "t" false (run [Digit "1"; Digit "3"] (new_controller fresh_store)))
    = play_puc :: rest.
Proof.
  apply (@confirma_plays_sound_first "t" false
           (run [Digit "1"; Digit "3"] (new_controller fresh_store))).
  discriminate.
Defined.

(** * Further properties of the report *)

Lemma total_votos_sum (votos_ : list (sqlval * nat)) :
  total_votos votos_ = sum_counts votos_.
Proof.
  unfold total_votos.
  assert (H : forall acc, fold_left (fun total kv => total + snd kv) votos_ acc
                          = acc + sum_counts votos_).
  { induction votos_ as [|kv rest IH]; intros acc; simpl; [lia|].
    rewrite IH. lia. }
  rewrite H. reflexivity.
Qed.

(** X18. When [on_relatorio] returns, the last line of the report window
    is the total, and the total is the number of rows of [votos]. *)
Theorem report_total_is_number_of_rows (m : Model) (rep : report) :
  on_relatorio m = inr rep ->
  exists lines,
    rep_lines rep = lines ++ [LineTotal (List.length (vt_rows (votos m)))].
Proof.
  unfold on_relatorio. destruct (contar_votos m) as [e|tally] eqn:E; [discriminate|].
  intros H. injection H as <-. simpl. unfold report_lines.
  assert (Hcol : has_column "candidato_id" (votos m) = true).
  { unfold contar_votos in E.
    destruct (has_column "candidato_id" (votos m)); [reflexivity | discriminate E]. }
  destruct (contar_votos_total m Hcol) as [tally' [E' Hs]].
  rewrite E in E'. injection E' as <-.
  rewrite total_votos_sum, Hs, app_assoc. eexists. reflexivity.
Qed.

Lemma report_total_is_number_of_rows_witness :
  exists lines,
    rep_lines {| rep_lines := [ LineCandidato (SqlInt 13) "A" (Some "P1") 0;
                                LineCandidato (SqlInt 22) "B" (Some "P2") 0;
                                LineTotal 0 ];
                 rep_csv := [csv_header] |}
    = lines ++ [LineTotal (List.length (vt_rows (votos provisioned_store)))].
Proof.
  apply (@report_total_is_number_of_rows provisioned_store). reflexivity.
Defined.

Lemma lookup_in (k : sqlval) (n : nat) (d : list (sqlval * nat)) :
  lookup k d = Some n -> In (k, n) d.
Proof.
  unfold lookup. destruct (find _ d) as [[k0 n0]|] eqn:F; [|discriminate].
  simpl. intros H. injection H as <-. apply find_some in F. destruct F as [Hin Heq].
  simpl in Heq. apply sqlval_eqb_eq in Heq. subst k0. exact Hin.
Qed.

Lemma lookup_none_not_in (k : sqlval) (d : list (sqlval * nat)) :
  lookup k d = None -> in_votos k d = false.
Proof.
  unfold lookup, in_votos. induction d as [|kv rest IH]; simpl; [reflexivity|].
  destruct (sqlval_eqb (fst kv) k); simpl; [discriminate | exact IH].
Qed.

Lemma dict_get_set {V : Type} (k k' : Z) (v : V) (d : list (Z * V)) :
  dict_get k (dict_set k' v d) = if Z.eqb k' k then Some v else dict_get k d.
Proof.
  induction d as [|[k0 v0] d IH]; simpl; [reflexivity|].
  destruct (Z.eqb k0 k') eqn:E0; simpl.
  - apply Z.eqb_eq in E0. subst k0. destruct (Z.eqb k' k); reflexivity.
  - rewrite IH. destruct (Z.eqb k0 k) eqn:E1; [|reflexivity].
    apply Z.eqb_eq in E1. subst k0. rewrite Z.eqb_sym, E0. reflexivity.
Qed.

Lemma dict_get_in {V : Type} (k : Z) (v : V) (d : list (Z * V)) :
  dict_get k d = Some v -> In (k, v) d.
Proof.
  induction d as [|[k0 v0] d IH]; simpl; [discriminate|].
  destruct (Z.eqb k0 k) eqn:E.
  - apply Z.eqb_eq in E. subst k0. intros H. injection H as <-. left. reflexivity.
  - intros H. right. exact (IH H).
Qed.

Lemma find_id_unique (c : candidato) (l : list candidato) :
  NoDup (map cand_id l) -> In c l ->
  find (fun d => Z.eqb (cand_id d) (cand_id c)) l = Some c.
Proof.
  induction l as [|d l IH]; simpl; intros Hnd Hin; [contradiction|].
  inversion Hnd as [|x xs Hnotin Hnd']; subst.
  destruct Hin as [->|Hin].
  - rewrite Z.eqb_refl. reflexivity.
  - destruct (Z.eqb (cand_id d) (cand_id c)) eqn:E.
    + apply Z.eqb_eq in E. exfalso. apply Hnotin. rewrite E.
      apply in_map. exact Hin.
    + exact (IH Hnd' Hin).
Qed.

Lemma find_id_perm (k : Z) (l l' : list candidato) :
  Permutation l l' -> NoDup (map cand_id l) ->
  find (fun d => Z.eqb (cand_id d) k) l' = find (fun d => Z.eqb (cand_id d) k) l.
Proof.
  intros Hp Hnd.
  assert (Hnd' : NoDup (map cand_id l')).
  { eapply Permutation_NoDup; [|exact Hnd]. apply Permutation_map. exact Hp. }
  destruct (find (fun d => Z.eqb (cand_id d) k) l) as [c|] eqn:F.
  - apply find_some in F. destruct F as [Hin Heq]. apply Z.eqb_eq in Heq. subst k.
    apply find_id_unique; [exact Hnd'|]. eapply Permutation_in; eassumption.
  - destruct (find (fun d => Z.eqb (cand_id d) k) l') as [c|] eqn:F'; [|reflexivity].
    apply find_some in F'. destruct F' as [Hin Heq].
    assert (Hin' : In c l).
    { eapply Permutation_in; [apply Permutation_sym; exact Hp | exact Hin]. }
    pose proof (find_none _ _ F c Hin') as Hf. simpl in Hf. congruence.
Qed.

Lemma find_id_perm_none (k : Z) (l l' : list candidato) :
  Permutation l l' ->
  find (fun d => Z.eqb (cand_id d) k) l = None ->
  find (fun d => Z.eqb (cand_id d) k) l' = None.
Proof.
  intros Hp F.
  destruct (find (fun d => Z.eqb (cand_id d) k) l') as [c|] eqn:F'; [|reflexivity].
  apply find_some in F'. destruct F' as [Hin Heq].
  assert (Hin' : In c l).
  { eapply Permutation_in; [apply Permutation_sym; exact Hp | exact Hin]. }
  pose proof (find_none _ _ F c Hin') as Hf. simpl in Hf. congruence.
Qed.

Lemma dict_get_fold_none (k : Z) (l : list candidato)
    (d : list (Z * (string * option string))) :
  find (fun c => Z.eqb (cand_id c) k) l = None ->
  dict_get k (fold_left (fun d c => dict_set (cand_id c) (cand_nome c, cand_partido c) d) l d)
  = dict_get k d.
Proof.
  revert d. induction l as [|c l IH]; intros d; simpl; [reflexivity|].
  destruct (Z.eqb (cand_id c) k) eqn:E; [discriminate|].
  intros F. rewrite (IH _ F), dict_get_set, E. reflexivity.
Qed.

Lemma dict_get_fold_unique (k : Z) (l : list candidato)
    (d : list (Z * (string * option string))) :
  NoDup (map cand_id l) ->
  dict_get k (fold_left (fun d c => dict_set (cand_id c) (cand_nome c, cand_partido c) d) l d)
  = match find (fun c => Z.eqb (cand_id c) k) l with
    | Some c => Some (cand_nome c, cand_partido c)
    | None => dict_get k d
    end.
Proof.
  revert d. induction l as [|c l IH]; intros d Hnd; simpl; [reflexivity|].
  inversion Hnd as [|x xs Hnotin Hnd']; subst.
  destruct (Z.eqb (cand_id c) k) eqn:E.
  - apply Z.eqb_eq in E. subst k.
    rewrite dict_get_fold_none.
    + rewrite dict_get_set, Z.eqb_refl. reflexivity.
    + destruct (find (fun c0 => Z.eqb (cand_id c0) (cand_id c)) l) as [c'|] eqn:F;
        [|reflexivity].
      apply find_some in F. destruct F as [Hin Heq]. apply Z.eqb_eq in Heq.
      exfalso. apply Hnotin. rewrite <- Heq. apply in_map. exact Hin.
  - rewrite (IH _ Hnd'), dict_get_set, E. reflexivity.
Qed.

(** The dict [on_relatorio] builds names a candidate as [get_candidato]
    does, when ids are unique as the primary key makes them. *)
Lemma candidatos_dict_get (m : Model) (k : Z) :
  NoDup (map cand_id (candidatos m)) ->
  dict_get k (candidatos_dict m)
  = match get_candidato k m with
    | Some c => Some (cand_nome c, cand_partido c)
    | None => None
    end.
Proof.
  intros Hnd. unfold candidatos_dict, get_candidato.
  destruct (listar_candidatos_perm_sorted m) as [Hp _].
  rewrite dict_get_fold_unique.
  - rewrite (find_id_perm k Hp Hnd). reflexivity.
  - eapply Permutation_NoDup; [|exact Hnd]. apply Permutation_map. exact Hp.
Qed.

Lemma candidatos_dict_get_none (m : Model) (k : Z) :
  get_candidato k m = None -> dict_get k (candidatos_dict m) = None.
Proof.
  intros H. unfold candidatos_dict, get_candidato in *.
  destruct (listar_candidatos_perm_sorted m) as [Hp _].
  rewrite dict_get_fold_none; [reflexivity|].
  exact (find_id_perm_none k Hp H).
Qed.

Lemma on_relatorio_inr (m : Model) (rep : report) :
  on_relatorio m = inr rep ->
  exists tally,
    contar_votos m = inr tally /\
    rep_lines rep = report_lines tally (candidatos_dict m) /\
    rep_csv rep = salvar_rows tally (candidatos_dict m).
Proof.
  unfold on_relatorio. destruct (contar_votos m) as [e|tally]; [discriminate|].
  intros H. injection H as <-. exists tally. auto.
Qed.

Lemma tally_entry (m : Model) (tally : list (sqlval * nat)) (k : sqlval) (c : nat) :
  contar_votos m = inr tally ->
  count_rows k m = S c ->
  In (k, S c) tally.
Proof.
  intros Ht Hc. apply lookup_in.
  rewrite (lookup_contar_votos m k Ht), Hc. reflexivity.
Qed.

(** X19. With unique candidate ids, the report window has, for every
    registered candidate, a line with its id, name and party and the number
    of rows of [votos] that hold its id, zero included; the CSV has the
    candidate's row only when that number is not zero. *)
Theorem report_lists_every_candidate
    (m : Model) (rep : report) (z : Z) (nome : string) (partido : option string) :
  NoDup (map cand_id (candidatos m)) ->
  on_relatorio m = inr rep ->
  get_candidato z m = Some (z, nome, partido) ->
  In (LineCandidato (SqlInt z) nome partido (count_rows (SqlInt z) m)) (rep_lines rep) /\
  (forall c, count_rows (SqlInt z) m = S c ->
             In [SqlInt z; SqlText nome; cell_of_partido partido; cell_of_count (S c)]
                (rep_csv rep)).
Proof.
  intros Hnd Hrep Hg.
  destruct (on_relatorio_inr m Hrep) as [tally (Ht & Hl & Hcsv)].
  pose proof (candidatos_dict_get m z Hnd) as Hd. rewrite Hg in Hd.
  change (cand_nome (z, nome, partido)) with nome in Hd.
  change (cand_partido (z, nome, partido)) with partido in Hd.
  assert (Hnp : nome_partido (SqlInt z) (candidatos_dict m) = (nome, partido)).
  { unfold nome_partido. rewrite Hd. reflexivity. }
  split.
  - rewrite Hl. unfold report_lines.
    destruct (count_rows (SqlInt z) m) as [|c] eqn:Hc.
    + apply in_or_app. right. apply in_or_app. left.
      unfold lines_without_votes. apply in_map_iff.
      exists (z, (nome, partido)). split; [reflexivity|].
      apply filter_In. split; [exact (dict_get_in _ _ Hd)|].
      cbn [fst]. rewrite lookup_none_not_in; [reflexivity|].
      rewrite (lookup_contar_votos m (SqlInt z) Ht), Hc. reflexivity.
    + apply in_or_app. left. apply in_map_iff.
      exists (SqlInt z, S c). split; [|exact (tally_entry m (SqlInt z) Ht Hc)].
      unfold line_of_vote. cbn [fst snd]. rewrite Hnp. reflexivity.
  - intros c Hc. rewrite Hcsv. unfold salvar_rows. right. apply in_map_iff.
    exists (SqlInt z, S c). split; [|exact (tally_entry m (SqlInt z) Ht Hc)].
    unfold csv_row. cbn [fst snd]. rewrite Hnp. reflexivity.
Qed.

Lemma report_lists_every_candidate_witness :
  In (LineCandidato (SqlInt 22) "B" (Some "P2") 0)
     [ LineBrancos 2;
       LineCandidato (SqlInt 13) "A" (Some "P1") 2;
       LineCandidato (SqlInt 22) "B" (Some "P2") 0;
       LineTotal 4 ].
Proof.
  apply (@report_lists_every_candidate
           (fst (gravar_votos (example_calls "t1" "t2" "t3" "t4") provisioned_store))
           {| rep_lines := [ LineBrancos 2;
                             LineCandidato (SqlInt 13) "A" (Some "P1") 2;
                             LineCandidato (SqlInt 22) "B" (Some "P2") 0;
                             LineTotal 4 ];
              rep_csv := [ csv_header;
                           [SqlText "BRANCO"; SqlText "BRANCO"; SqlText ""; SqlInt 2];
                           [SqlInt 13; SqlText "A"; SqlText "P1"; SqlInt 2] ] |}
           22%Z "B" (Some "P2")).
  - simpl. constructor; [simpl; intros [H|[]]; discriminate H|].
    constructor; [intros []|]. constructor.
  - reflexivity.
  - reflexivity.
Defined.

(** X20. Rows with no candidate, blank and null votes alike, are reported
    together: the window has the line BRANCOS and the CSV the row BRANCO,
    both with the number of rows whose [candidato_id] is NULL. *)
Theorem report_counts_null_ids_as_brancos (m : Model) (rep : report) (c : nat) :
  on_relatorio m = inr rep ->
  count_rows SqlNull m = S c ->
  In (LineBrancos (S c)) (rep_lines rep) /\
  In [SqlText "BRANCO"; SqlText "BRANCO"; SqlText ""; cell_of_count (S c)] (rep_csv rep).
Proof.
  intros Hrep Hc.
  destruct (on_relatorio_inr m Hrep) as [tally (Ht & Hl & Hcsv)].
  pose proof (tally_entry m SqlNull Ht Hc) as Hin.
  split.
  - rewrite Hl. unfold report_lines. apply in_or_app. left. apply in_map_iff.
    exists (SqlNull, S c). split; [reflexivity | exact Hin].
  - rewrite Hcsv. unfold salvar_rows. right. apply in_map_iff.
    exists (SqlNull, S c). split; [reflexivity | exact Hin].
Qed.

Lemma report_counts_null_ids_as_brancos_witness :
  In (LineBrancos 2)
     [ LineBrancos 2;
       LineCandidato (SqlInt 13) "A" (Some "P1") 2;
       LineCandidato (SqlInt 22) "B" (Some "P2") 0;
       LineTotal 4 ] /\
  In [SqlText "BRANCO"; SqlText "BRANCO"; SqlText ""; cell_of_count 2]
     [ csv_header;
       [SqlText "BRANCO"; SqlText "BRANCO"; SqlText ""; SqlInt 2];
       [SqlInt 13; SqlText "A"; SqlText "P1"; SqlInt 2] ].
Proof.
  apply (@report_counts_null_ids_as_brancos
           (fst (gravar_votos (example_calls "t1" "t2" "t3" "t4") provisioned_store))
           {| rep_lines := [ LineBrancos 2;
                             LineCandidato (SqlInt 13) "A" (Some "P1") 2;
                             LineCandidato (SqlInt 22) "B" (Some "P2") 0;
                             LineTotal 4 ];
              rep_csv := [ csv_header;
                           [SqlText "BRANCO"; SqlText "BRANCO"; SqlText ""; SqlInt 2];
                           [SqlInt 13; SqlText "A"; SqlText "P1"; SqlInt 2] ] |}
           1).
  - reflexivity.
  - reflexivity.
Defined.

(** X21. Votes held for an id that is no longer in the registry are still
    reported: window and CSV carry them under the name "<desconhecido>"
    with an empty party. *)
Theorem report_names_unknown_ids (m : Model) (rep : report) (z : Z) (c : nat) :
  on_relatorio m = inr rep ->
  get_candidato z m = None ->
  count_rows (SqlInt z) m = S c ->
  In (LineCandidato (SqlInt z) "<desconhecido>" (Some "") (S c)) (rep_lines rep) /\
  In [SqlInt z; SqlText "<desconhecido>"; SqlText ""; cell_of_count (S c)] (rep_csv rep).
Proof.
  intros Hrep Hg Hc.
  destruct (on_relatorio_inr m Hrep) as [tally (Ht & Hl & Hcsv)].
  pose proof (tally_entry m (SqlInt z) Ht Hc) as Hin.
  pose proof (candidatos_dict_get_none m z Hg) as Hd.
  assert (Hnp : nome_partido (SqlInt z) (candidatos_dict m) = ("<desconhecido>", Some "")).
  { unfold nome_partido. rewrite Hd. reflexivity. }
  split.
  - rewrite Hl. unfold report_lines. apply in_or_app. left. apply in_map_iff.
    exists (SqlInt z, S c). split; [|exact Hin].
    unfold line_of_vote. cbn [fst snd]. rewrite Hnp. reflexivity.
  - rewrite Hcsv. unfold salvar_rows. right. apply in_map_iff.
    exists (SqlInt z, S c). split; [|exact Hin].
    unfold csv_row. cbn [fst snd]. rewrite Hnp. reflexivity.
Qed.

Lemma report_names_unknown_ids_witness :
  In (LineCandidato (SqlInt 99) "<desconhecido>" (Some "") 1)
     [ LineCandidato (SqlInt 99) "<desconhecido>" (Some "") 1;
       LineCandidato (SqlInt 13) "A" (Some "P1") 0;
       LineCandidato (SqlInt 22) "B" (Some "P2") 0;
       LineTotal 1 ] /\
  In [SqlInt 99; SqlText "<desconhecido>"; SqlText ""; cell_of_count 1]
     [ csv_header; [SqlInt 99; SqlText "<desconhecido>"; SqlText ""; SqlInt 1] ].
Proof.
  apply (@report_names_unknown_ids
           (fst (gravar_votos [("t", Some 99%Z)] provisioned_store))
           {| rep_lines := [ LineCandidato (SqlInt 99) "<desconhecido>" (Some "") 1;
                             LineCandidato (SqlInt 13) "A" (Some "P1") 0;
                             LineCandidato (SqlInt 22) "B" (Some "P2") 0;
                             LineTotal 1 ];
              rep_csv := [ csv_header;
                           [SqlInt 99; SqlText "<desconhecido>"; SqlText ""; SqlInt 1] ] |}
           99%Z 0).
  - reflexivity.
  - reflexivity.
  - reflexivity.
Defined.

(** * Further properties: writing and counting together *)

Lemma has_column_nocase_of_has_column (c : string) (t : votos_table) :
  has_column c t = true -> has_column_nocase c t = true.
Proof.
  unfold has_column, has_column_nocase. intros H.
  apply existsb_exists in H. destruct H as [k [Hin Heq]].
  apply existsb_exists. exists k. split; [exact Hin|].
  apply String.eqb_eq in Heq. rewrite Heq. apply String.eqb_refl.
Qed.

(** X22. On a [votos] table that has the columns [candidato_id] and
    [voto_tipo], for [None] or an id within SQLite's integers,
    [gravar_voto] completes: it adds one row at the end, holding the given
    id with type VALIDO, or NULL with type BRANCO, and changes neither the
    earlier rows, nor the columns, nor the registry.  It does not look the
    id up: an id that is not registered is stored all the same.  On a table
    that lacks one of the two columns, in whatever letter case, it raises
    [OperationalError]. *)
Theorem gravar_voto_contract (agora : string) (candidato_id : option Z) (m : Model) :
  (accepts_votes m ->
   sqlite_integer_id candidato_id ->
   exists r,
     gravar_voto agora candidato_id m
     = inr {| candidatos := candidatos m;
              votos := {| vt_columns := vt_columns (votos m);
                          vt_rows := vt_rows (votos m) ++ [r];
                          vt_seq := (vt_seq (votos m) + 1)%Z |} |} /\
     valor "candidato_id" r = candidato_val candidato_id /\
     valor "voto_tipo" r
     = SqlText (match candidato_id with Some _ => "VALIDO" | None => "BRANCO" end)) /\
  (has_column_nocase "candidato_id" (votos m)
   && has_column_nocase "voto_tipo" (votos m) = false ->
   exists msg, gravar_voto agora candidato_id m = inl (OperationalError msg)).
Proof.
  split.
  - intros Hacc _. exists (voto_row agora candidato_id (votos m)).
    rewrite (gravar_voto_accepted agora candidato_id Hacc).
    destruct Hacc as [Hc Ht]. split; [reflexivity|]. split.
    + exact (valor_voto_row_candidato agora candidato_id _ Hc).
    + exact (valor_voto_row_tipo agora candidato_id _ Ht).
  - intros Hn. destruct (gravar_voto agora candidato_id m) as [e|m'] eqn:E.
    + unfold gravar_voto, insert_votos in E.
      destruct candidato_id; simpl in E;
        destruct (has_column "candidato_id" (votos m));
        destruct (has_column "voto_tipo" (votos m)); simpl in E;
        try discriminate E; injection E as <-; eauto.
    + apply gravar_voto_inr in E. destruct E as [[Hc Ht] _].
      rewrite (has_column_nocase_of_has_column _ _ Hc),
              (has_column_nocase_of_has_column _ _ Ht) in Hn.
      discriminate Hn.
Qed.

Lemma gravar_voto_contract_witness :
  (exists r,
     gravar_voto "t" (Some 99%Z) provisioned_store
     = inr {| candidatos := candidatos provisioned_store;
              votos := {| vt_columns := vt_columns (votos provisioned_store);
                          vt_rows := vt_rows (votos provisioned_store) ++ [r];
                          vt_seq := (vt_seq (votos provisioned_store) + 1)%Z |} |} /\
     valor "candidato_id" r = candidato_val (Some 99%Z) /\
     valor "voto_tipo" r = SqlText "VALIDO") /\
  (exists msg, gravar_voto "t" (Some 99%Z) fresh_store = inl (OperationalError msg)).
Proof.
  split.
  - apply (proj1 (@gravar_voto_contract "t" (Some 99%Z) provisioned_store)).
    + split; reflexivity.
    + unfold sqlite_integer_id, sqlite_integer. lia.
  - apply (proj2 (@gravar_voto_contract "t" (Some 99%Z) fresh_store)).
    reflexivity.
Defined.

Lemma count_rows_with_vote (agora : string) (cid : option Z) (m : Model) (k : sqlval) :
  has_column "candidato_id" (votos m) = true ->
  count_rows k (with_vote agora cid m)
  = count_rows k m + (if sqlval_eqb (candidato_val cid) k then 1 else 0).
Proof.
  intros Hc. unfold count_rows, with_vote. cbn [votos vt_rows].
  rewrite map_app, filter_app, List.length_app. f_equal. cbn [map filter].
  rewrite (valor_voto_row_candidato agora cid _ Hc).
  fold (candidato_val cid).
  destruct (sqlval_eqb (candidato_val cid) k); reflexivity.
Qed.

(** X23. A completed [gravar_voto] raises the count [contar_votos] gives to
    the stored id (NULL for a blank or null vote) by exactly one and leaves
    every other count as it was. *)
Theorem vote_raises_only_its_count
    (agora : string) (cid : option Z) (m m' : Model) :
  gravar_voto agora cid m = inr m' ->
  exists tally',
    contar_votos m' = inr tally' /\
    lookup (candidato_val cid) tally' = Some (S (count_rows (candidato_val cid) m)) /\
    forall k, k <> candidato_val cid ->
              lookup k tally'
              = match count_rows k m with O => None | S c => Some (S c) end.
Proof.
  intros H. apply gravar_voto_inr in H. destruct H as [[Hc Ht] ->].
  destruct (contar_votos_total (with_vote agora cid m) Hc) as [tally' [E _]].
  exists tally'. split; [exact E|]. split.
  - rewrite (lookup_contar_votos _ (candidato_val cid) E).
    rewrite (count_rows_with_vote agora cid m _ Hc), sqlval_eqb_refl.
    replace (count_rows (candidato_val cid) m + 1)
      with (S (count_rows (candidato_val cid) m)) by lia.
    reflexivity.
  - intros k Hk. rewrite (lookup_contar_votos _ k E).
    rewrite (count_rows_with_vote agora cid m _ Hc).
    destruct (sqlval_eqb (candidato_val cid) k) eqn:Ek.
    + apply sqlval_eqb_eq in Ek. congruence.
    + rewrite Nat.add_0_r. reflexivity.
Qed.

Lemma vote_raises_only_its_count_witness :
  exists tally',
    contar_votos (with_vote "t" (Some 13%Z) provisioned_store) = inr tally' /\
    lookup (candidato_val (Some 13%Z)) tally'
    = Some (S (count_rows (candidato_val (Some 13%Z)) provisioned_store)) /\
    forall k, k <> candidato_val (Some 13%Z) ->
              lookup k tally'
              = match count_rows k provisioned_store with
                | O => None
                | S c => Some (S c)
                end.
Proof.
  apply (@vote_raises_only_its_count "t" (Some 13%Z) provisioned_store
           (with_vote "t" (Some 13%Z) provisioned_store)).
  reflexivity.
Defined.

Lemma handle_appends_at_most_one (ev : event) (c : Controller) :
  List.length (ledger (final (handle ev c)))
  <= List.length (ledger c) + (if is_confirma ev then 1 else 0).
Proof.
  destruct (is_confirma ev) eqn:E.
  - destruct ev as [d| | |agora resp|]; try discriminate E. cbn [handle].
    destruct (on_confirma_writes agora resp c) as [[Hm _]|[cid (Hm & _)]];
      unfold ledger; rewrite Hm; [lia|].
    cbn [with_vote votos vt_rows]. rewrite List.length_app. simpl. lia.
  - destruct (handle_appends ev c) as [new (H & _ & _ & _ & Hn)].
    rewrite H, (Hn E), app_nil_r. lia.
Qed.

(** X24. A session adds at most one row for each press of CONFIRMA:
    whatever the events, the ledger grows by no more than the number of
    CONFIRMA events among them. *)
Theorem at_most_one_row_per_confirma (evs : list event) (c : Controller) :
  List.length (ledger (run evs c))
  <= List.length (ledger c) + List.length (filter is_confirma evs).
Proof.
  revert c. induction evs as [|ev evs IH]; intros c; [simpl; lia|].
  rewrite run_cons. specialize (IH (final (handle ev c))).
  pose proof (handle_appends_at_most_one ev c) as H1.
  simpl. destruct (is_confirma ev); simpl in *; lia.
Qed.


(** * Further properties: looking a candidate up *)

(** X3. With unique ids, as the primary key makes them, and an id within
    SQLite's integers, [get_candidato] finds a candidate exactly when it is
    the row of [candidatos] with that id, every registered candidate being
    found under its own id, and it returns [None] exactly when no row has
    the id. *)
Theorem get_candidato_sound_complete (id_ : Z) (m : Model) (cand : candidato) :
  sqlite_integer id_ ->
  NoDup (map cand_id (candidatos m)) ->
  (get_candidato id_ m = Some cand <->
   In cand (candidatos m) /\ cand_id cand = id_) /\
  (get_candidato id_ m = None <->
   forall c, In c (candidatos m) -> cand_id c <> id_).
Proof.
  intros _ Hnd. unfold get_candidato. split; split.
  - intros H. apply find_some in H. destruct H as [Hin Heq].
    apply Z.eqb_eq in Heq. auto.
  - intros [Hin <-]. exact (find_id_unique cand (candidatos m) Hnd Hin).
  - intros H c Hin Heq.
    pose proof (find_none _ _ H c Hin) as Hf. simpl in Hf.
    apply Z.eqb_neq in Hf. contradiction.
  - intros H. destruct (find _ (candidatos m)) as [c|] eqn:E; [|reflexivity].
    apply find_some in E. destruct E as [Hin Heq]. apply Z.eqb_eq in Heq.
    exfalso. exact (H c Hin Heq).
Qed.

Lemma get_candidato_sound_complete_witness :
  (get_candidato 22 provisioned_store = Some (22%Z, "B", Some "P2") <->
   In (22%Z, "B", Some "P2") (candidatos provisioned_store) /\
   cand_id (22%Z, "B", Some "P2") = 22%Z) /\
  (get_candidato 22 provisioned_store = None <->
   forall c, In c (candidatos provisioned_store) -> cand_id c <> 22%Z).
Proof.
  apply (@get_candidato_sound_complete 22%Z provisioned_store (22%Z, "B", Some "P2")).
  - unfold sqlite_integer. lia.
  - simpl. constructor; [simpl; intros [H|[]]; discriminate H|].
    constructor; [intros []|]. constructor.
Defined.
